(** * cuddle_api: peer signaling relay, pairing and presence

    A shallow embedding of the request handlers of the WebRTC signaling
    routes (the in-memory [signalingStore]) and of
    [src/routes/authRoutes.js] (pairing, presence, typing), followed by the
    properties of the relay that the specification states.

    Conventions.
    - Identities are the strings [req.user.id] / [_id.toString()].
    - JavaScript values that arrive in a JSON body are [jsval]; only what
      the handlers inspect (truthiness, [=== true], being a string) is
      interpreted.
    - [Date.now()] / [new Date()] readings are explicit [Z] arguments
      (milliseconds).
    - Database calls succeed: the [catch] branches are reached only by
      the exceptions the handler bodies raise themselves.
    - The user collection is a [gmap] from [_id] to the fields of
      [models/User.js] that the handlers read or write.
    - A handler body between two [await]s runs without interruption (the
      event loop is run-to-completion), so every such segment is one
      function on the state. *)

From Stdlib Require Import ZArith Ascii String List Lia.
From stdpp Require Import gmap strings list fin_maps.

Local Open Scope string_scope.
Local Open Scope list_scope.
#[local] Set Warnings "-register-all".

(** ** JavaScript values *)

Module JS.

(** Numbers are the integers; any other number is truthy like a non-zero
    integer. *)
Inductive jsval :=
  | VUndefined
  | VNull
  | VBool (b : bool)
  | VNum (z : Z)
  | VStr (s : string)
  | VArr (items : list jsval)
  | VObj (fields : list jsfield)
with jsfield :=
  | Field (k : string) (v : jsval).

(** [ToBoolean]: what [if (v)], [!v] and [v ? a : b] test. *)
Definition truthy (v : jsval) : bool :=
  match v with
  | VUndefined | VNull => false
  | VBool b => b
  | VNum z => negb (z =? 0)%Z
  | VStr s => negb (String.eqb s "")
  | VArr _ | VObj _ => true
  end.

(** [v === true] *)
Definition strict_true (v : jsval) : bool :=
  match v with
  | VBool true => true
  | _ => false
  end.

(** A parsed JSON request body is a [gmap string jsval];
    [const { k } = req.body] reads an absent key as [undefined]. *)
Definition field (b : gmap string jsval) (k : string) : jsval :=
  default VUndefined (b !! k).

(** [ToNumber] of a nullable date, as relational comparison applies it:
    [null] converts to [0]. *)
Definition date_number (d : option Z) : Z := default 0%Z d.

(** [String.prototype.toUpperCase] on the ASCII range. *)
Definition upper_ascii (c : ascii) : ascii :=
  let n := nat_of_ascii c in
  if ((97 <=? n) && (n <=? 122))%nat then ascii_of_nat (n - 32) else c.

Fixpoint toUpperCase (s : string) : string :=
  match s with
  | EmptyString => EmptyString
  | String c s' => String (upper_ascii c) (toUpperCase s')
  end.

End JS.
Import JS.

(** ** models/User.js *)

Record User := mkUser {
  publicId : string;
  partnerId : option string;
  inviteCode : option string;
  lastActiveAt : Z;
  isOnline : bool;
  isTyping : bool;
  typingAt : option Z;
}.

(** [User.findById(id)] *)
Definition findById (db : gmap string User) (id : string) : option User :=
  db !! id.

(** A 24-digit lowercase hexadecimal string: the form of
    [ObjectId.prototype.toString()]. *)
Definition is_hex_digit (c : ascii) : bool :=
  let n := nat_of_ascii c in
  (((48 <=? n) && (n <=? 57)) || ((97 <=? n) && (n <=? 102)))%nat.

Definition is_object_id (s : string) : bool :=
  (String.length s =? 24)%nat && forallb is_hex_digit (list_ascii_of_string s).

(** [res.status(n).json(b)]; [res.json(b)] is status 200. *)
Record response (B : Type) := Json { status : nat; payload : B }.
Arguments Json {B} _ _.
Arguments status {B} _.
Arguments payload {B} _.

(** ** WebRTC signaling routes: the signaling store *)

Module WebRTC.

Inductive signal_type := offer | answer | end_.

(** The object stored under the recipient's id. *)
Record signal := mkSignal {
  sig_type : signal_type;
  sig_sdp : option jsval;
  sig_from : string;
  sig_timestamp : Z;
}.

(** One element of the array stored under [ice-<id>]. *)
Record ice := mkIce {
  candidate : jsval;
  ice_from : string;
  ice_timestamp : Z;
}.

(** [signalingStore] is one [Map] holding both kinds of value. *)
Inductive store_val :=
  | SSignal (s : signal)
  | SIce (cs : list ice).

Definition iceKey (id : string) : string := "ice-" +:+ id.

Inductive res_body :=
  | RSuccess
  | RError (msg : string)
  | RPoll (sig : option store_val) (iceCandidates : store_val).

Abbreviation response := (response res_body).

Definition ok (b : res_body) : response := Json 200 b.

(** The failure conditions of the specification, as the code sends them. *)
Definition NoPartnerLinked : response := Json 400 (RError "No partner connected").
Definition MissingPayload (what : string) : response :=
  Json 400 (RError ("SDP " +:+ what +:+ " required")).
Definition ServerError : response := Json 500 (RError "Server error").

(** A handler runs up to its [await User.findById(..)], if it has one;
    the continuation receives the document, the clock and the store as
    they are when the handler is resumed. *)
Inductive proc :=
  | Respond (r : response)
  | AwaitFindById (id : string)
      (k : option User -> Z -> gmap string store_val ->
           gmap string store_val * response).

(** [signalingStore.set(partnerKey, {type, sdp, from, timestamp})] *)
Definition setEntry (recipient : string) (e : signal)
    (st : gmap string store_val) : gmap string store_val :=
  <[recipient := SSignal e]> st.

(** The precondition shared by the sending routes:
    [if (!user || !user.partnerId)]. *)
Definition partner_of (u : option User) : option string :=
  match u with
  | Some u => partnerId u
  | None => None
  end.

(** POST /offer and POST /answer differ in the tag and the message only. *)
Definition send_sdp (ty : signal_type) (what : string)
    (caller : string) (b : gmap string jsval) : proc :=
  let sdp := field b "sdp" in
  if negb (truthy sdp) then Respond (MissingPayload what)
  else AwaitFindById caller (fun user now st =>
    match partner_of user with
    | None => (st, NoPartnerLinked)
    | Some partnerKey =>
        (setEntry partnerKey (mkSignal ty (Some sdp) caller now) st,
         ok RSuccess)
    end).

Definition post_offer := send_sdp offer "offer".
Definition post_answer := send_sdp answer "answer".

(** POST /ice-candidate.  [existing.push] exists only on an array: on any
    other stored value the call throws and the [catch] answers 500.  The
    array is pushed to in place and stored again under the same key; no
    other reference to it is kept, so the store holds the extended list. *)
Definition post_ice_candidate (caller : string) (b : gmap string jsval) : proc :=
  let cand := field b "candidate" in
  AwaitFindById caller (fun user now st =>
    match partner_of user with
    | None => (st, NoPartnerLinked)
    | Some p =>
        let partnerKey := iceKey p in
        match st !! partnerKey with
        | Some (SSignal _) => (st, ServerError)
        | Some (SIce existing) =>
            (<[partnerKey := SIce (existing ++ [mkIce cand caller now])]> st,
             ok RSuccess)
        | None =>
            (<[partnerKey := SIce [mkIce cand caller now]]> st, ok RSuccess)
        end
    end).

(** [iceCandidates.length > 0]; [length] of a non-array is [undefined]. *)
Definition has_length (v : store_val) : bool :=
  match v with
  | SIce (_ :: _) => true
  | _ => false
  end.

(** GET /poll: no [await]; the whole body is one segment. *)
Definition get_poll (caller : string) (st : gmap string store_val)
    : gmap string store_val * response :=
  let myKey := caller in
  let iceKey := iceKey caller in
  let sig := st !! myKey in
  let iceCandidates := default (SIce []) (st !! iceKey) in
  let st1 := match sig with Some _ => delete myKey st | None => st end in
  let st2 := if has_length iceCandidates then delete iceKey st1 else st1 in
  (st2, ok (RPoll sig iceCandidates)).

(** POST /end *)
Definition post_end (caller : string) : proc :=
  AwaitFindById caller (fun user now st =>
    match partner_of user with
    | None => (st, ok RSuccess)
    | Some partnerKey =>
        (setEntry partnerKey (mkSignal end_ None caller now) st, ok RSuccess)
    end).

(** The router: what runs when a request arrives, up to the first
    [await]. *)
Inductive request :=
  | Offer (b : gmap string jsval)
  | Answer (b : gmap string jsval)
  | IceCandidate (b : gmap string jsval)
  | Poll
  | End.

Definition start (rq : request) (caller : string)
    (st : gmap string store_val) : gmap string store_val * proc :=
  match rq with
  | Offer b => (st, post_offer caller b)
  | Answer b => (st, post_answer caller b)
  | IceCandidate b => (st, post_ice_candidate caller b)
  | Poll => let '(st', r) := get_poll caller st in (st', Respond r)
  | End => (st, post_end caller)
  end.

(** One request served with nothing else running in between. *)
Definition serve (db : gmap string User) (now : Z) (caller : string)
    (rq : request) (st : gmap string store_val)
    : gmap string store_val * response :=
  match start rq caller st with
  | (st1, Respond r) => (st1, r)
  | (st1, AwaitFindById id k) => k (findById db id) now st1
  end.

(** Requests served one after the other; each carries its clock reading
    and its authenticated caller. *)
Fixpoint serve_all (db : gmap string User) (reqs : list (Z * string * request))
    (st : gmap string store_val) : gmap string store_val * list response :=
  match reqs with
  | [] => (st, [])
  | (now, caller, rq) :: reqs' =>
      let '(st1, r) := serve db now caller rq st in
      let '(st2, rs) := serve_all db reqs' st1 in
      (st2, r :: rs)
  end.

(** *** The event loop

    Requests of many callers interleave at their [await]s only.  A world
    holds the user collection, the store, the suspended handlers and the
    responses sent so far. *)
Record suspended := Suspended {
  s_caller : string;
  s_request : request;
  s_id : string;
  s_k : option User -> Z -> gmap string store_val ->
        gmap string store_val * response;
}.

Record world := World {
  users : gmap string User;
  signalingStore : gmap string store_val;
  pending : list suspended;
  sent : list (string * response);
}.

Inductive event :=
  | Arrive (caller : string) (rq : request)
  | Resume (i : nat) (now : Z)
  | DbUpdate (db' : gmap string User).

Definition exec (w : world) (e : event) : world :=
  match e with
  | Arrive caller rq =>
      match start rq caller (signalingStore w) with
      | (st', Respond r) =>
          World (users w) st' (pending w) (sent w ++ [(caller, r)])
      | (st', AwaitFindById id k) =>
          World (users w) st' (pending w ++ [Suspended caller rq id k]) (sent w)
      end
  | Resume i now =>
      match pending w !! i with
      | None => w
      | Some s =>
          let '(st', r) :=
            s_k s (findById (users w) (s_id s)) now (signalingStore w) in
          World (users w) st' (delete i (pending w))
                (sent w ++ [(s_caller s, r)])
      end
  | DbUpdate db' => World db' (signalingStore w) (pending w) (sent w)
  end.

Definition run (w : world) (evs : list event) : world := fold_left exec evs w.

(** *** Well-formed stores

    Signals sit under object ids, non-empty candidate arrays under [ice-]
    keys.  Every store the router builds for users whose partner ids are
    object ids has this shape. *)

Definition val_ok (k : string) (v : store_val) : Prop :=
  match v with
  | SSignal _ => is_object_id k = true
  | SIce cs => cs ≠ [] ∧ ∃ id, k = iceKey id
  end.

Definition store_ok (st : gmap string store_val) : Prop :=
  map_Forall val_ok st.

Definition users_ok (db : gmap string User) : Prop :=
  ∀ id u p, db !! id = Some u → partnerId u = Some p → is_object_id p = true.

(** The candidate queue of a recipient, as a list. *)
Definition queue (st : gmap string store_val) (r : string) : list ice :=
  match st !! iceKey r with
  | Some (SIce cs) => cs
  | _ => []
  end.

(** *** Vocabulary of the properties *)

(** What an accepted sending request of [caller] writes into the slot of
    the caller's partner. *)
Definition written (caller : string) (now : Z) (rq : request) : option signal :=
  match rq with
  | Offer b => Some (mkSignal offer (Some (field b "sdp")) caller now)
  | Answer b => Some (mkSignal answer (Some (field b "sdp")) caller now)
  | End => Some (mkSignal end_ None caller now)
  | _ => None
  end.

(** The sending requests that carry what their route requires. *)
Definition accepted (rq : request) : bool :=
  match rq with
  | Offer b | Answer b => truthy (field b "sdp")
  | End => true
  | _ => false
  end.

(** A candidate request: clock reading, caller, body; and the fragment
    it appends. *)
Definition ice_request (x : Z * string * gmap string jsval)
    : Z * string * request :=
  (x.1.1, x.1.2, IceCandidate x.2).

Definition fragment (x : Z * string * gmap string jsval) : ice :=
  mkIce (field x.2 "candidate") x.1.2 x.1.1.

(** A request of [caller] with its clock reading. *)
Definition sent_by (caller : string) (y : Z * request) : Z * string * request :=
  (y.1, caller, y.2).

(** *** The mailbox of one recipient along a schedule *)

(** What a recipient can observe of the store: the slot and the queue. *)
Definition mailbox (st : gmap string store_val) (r : string)
    : option store_val * list ice :=
  (st !! r, queue st r).

(** What an event does to the mailbox of [r]: a poll of [r] drains it; a
    resumed offer / answer / end of a caller whose partner is [r] sets the
    slot; a resumed candidate request of such a caller appends to the
    queue; anything else leaves it alone. *)
Inductive effect :=
  | Drains
  | Sets (e : signal)
  | Appends (c : ice)
  | Nothing.

Definition effect_on (r : string) (w : world) (ev : event) : effect :=
  match ev with
  | Arrive caller Poll => if String.eqb caller r then Drains else Nothing
  | Arrive _ _ => Nothing
  | Resume i now =>
      match pending w !! i with
      | None => Nothing
      | Some s =>
          match partner_of (findById (users w) (s_id s)) with
          | None => Nothing
          | Some p =>
              if String.eqb p r then
                match s_request s with
                | IceCandidate b =>
                    Appends (mkIce (field b "candidate") (s_caller s) now)
                | rq =>
                    match written (s_caller s) now rq with
                    | Some e => Sets e
                    | None => Nothing
                    end
                end
              else Nothing
          end
      end
  | DbUpdate _ => Nothing
  end.

(** The effects of a schedule, each taken in the world its event meets. *)
Fixpoint effects (r : string) (w : world) (evs : list event) : list effect :=
  match evs with
  | [] => []
  | ev :: evs' => effect_on r w ev :: effects r (exec w ev) evs'
  end.

Definition apply_effect (m : option store_val * list ice) (f : effect)
    : option store_val * list ice :=
  match f with
  | Drains => (None, [])
  | Sets e => (Some (SSignal e), m.2)
  | Appends c => (m.1, m.2 ++ [c])
  | Nothing => m
  end.

Definition is_drain (f : effect) : bool :=
  match f with Drains => true | _ => false end.

(** The last entry set, and the fragments appended, by a list of
    effects. *)
Fixpoint last_set (fs : list effect) : option signal :=
  match fs with
  | [] => None
  | f :: fs' =>
      match last_set fs' with
      | Some e => Some e
      | None => match f with Sets e => Some e | _ => None end
      end
  end.

Fixpoint appended (fs : list effect) : list ice :=
  match fs with
  | [] => []
  | Appends c :: fs' => c :: appended fs'
  | _ :: fs' => appended fs'
  end.

(** Worlds and events of the running server: every suspended handler is
    the continuation of the request it was started for, stored values
    have the shape of their key, partner ids and authenticated callers are
    object ids. *)
Definition suspended_ok (s : suspended) : Prop :=
  ∀ st, start (s_request s) (s_caller s) st
        = (st, AwaitFindById (s_id s) (s_k s)).

Definition world_ok (w : world) : Prop :=
  store_ok (signalingStore w) ∧ users_ok (users w)
  ∧ Forall suspended_ok (pending w).

Definition event_ok (ev : event) : Prop :=
  match ev with
  | Arrive caller _ => is_object_id caller = true
  | Resume _ _ => True
  | DbUpdate db' => users_ok db'
  end.

(** Two linked accounts, used to exercise the statements. *)
Definition alice : string := "64f1c0aa9b3e4d0012ab34cd".
Definition bob : string := "64f1c0bb9b3e4d0012ab34ce".
Definition carol : string := "64f1c0cc9b3e4d0012ab34cf".

Definition couple : gmap string User :=
  <[alice := mkUser "pa" (Some bob) (Some "AAAA2222") 0 true false None]>
    (<[bob := mkUser "pb" (Some alice) (Some "BBBB3333") 0 true false None]>
       (<[carol := mkUser "pc" None (Some "CCCC4444") 0 false false None]> ∅)).

Definition sdp_body (s : string) : gmap string jsval := {["sdp" := VStr s]}.
Definition candidate_body (s : string) : gmap string jsval :=
  {["candidate" := VStr s]}.

Definition no_mail : gmap string store_val := ∅.
Definition no_body : gmap string jsval := ∅.

Definition three_candidates : list (Z * string * gmap string jsval) :=
  [(1000%Z, alice, candidate_body "c1");
   (1001%Z, alice, candidate_body "c2");
   (1002%Z, alice, candidate_body "c3")].

Definition first_offer : Z * request := (1000%Z, Offer (sdp_body "first")).
Definition second_offer : Z * request := (1001%Z, Offer (sdp_body "second")).

(** The server at rest, and a schedule in which [bob] polls between
    writes of [alice] whose handlers are resumed out of order. *)
Definition quiet : world := World couple no_mail [] [].

Definition busy_evening : list event :=
  [Arrive alice (IceCandidate (candidate_body "c0"));
   Resume 0 900;
   Arrive bob Poll;
   Arrive alice (Offer (sdp_body "first"));
   Arrive alice (IceCandidate (candidate_body "c1"));
   Arrive bob (IceCandidate (candidate_body "x"));
   Resume 1 1001;
   Resume 0 1002;
   Resume 0 1003].

(** A poll of [r] at each of the given clock readings. *)
Definition polls (r : string) (ts : list Z) : list (Z * string * request) :=
  map (fun t => (t, r, Poll)) ts.

End WebRTC.

(** ** src/routes/authRoutes.js: pairing, presence, typing *)

Module Auth.

Inductive res_body :=
  | RError (msg : string)
  | RMessage (msg : string)
  | ROk
  | RUser (id : string) (u : User)
  | RLinked (partner : string)
  | RNotConnected
  | RStatus (isOnline : bool) (lastActive : Z) (isTyping : bool).

Abbreviation response := (response res_body).

Definition ServerError : response := Json 500 (RError "Server error").

Definition set_partnerId (p : string) (u : User) : User :=
  mkUser (publicId u) (Some p) (inviteCode u) (lastActiveAt u)
         (isOnline u) (isTyping u) (typingAt u).

Definition set_inviteCode (c : string) (u : User) : User :=
  mkUser (publicId u) (partnerId u) (Some c) (lastActiveAt u)
         (isOnline u) (isTyping u) (typingAt u).

(** [lastActiveAt = new Date(); isOnline = true] *)
Definition touchActivity (now : Z) (u : User) : User :=
  mkUser (publicId u) (partnerId u) (inviteCode u) now
         true (isTyping u) (typingAt u).

(** [{ isOnline: false }] *)
Definition setOffline (u : User) : User :=
  mkUser (publicId u) (partnerId u) (inviteCode u) (lastActiveAt u)
         false (isTyping u) (typingAt u).

(** [{ isTyping: isTyping === true, typingAt: isTyping ? new Date() : null }] *)
Definition setTyping (v : jsval) (now : Z) (u : User) : User :=
  mkUser (publicId u) (partnerId u) (inviteCode u) (lastActiveAt u)
         (isOnline u) (strict_true v) (if truthy v then Some now else None).

(** [User.findByIdAndUpdate(id, update)]: nothing happens when no document
    has that id. *)
Definition findByIdAndUpdate (id : string) (upd : User -> User)
    (db : gmap string User) : gmap string User :=
  match db !! id with
  | Some u => <[id := upd u]> db
  | None => db
  end.

(** [User.findOne(query)]: a document that satisfies the query, with its
    [_id]. *)
Definition findOne (q : User -> bool) (db : gmap string User)
    : option (string * User) :=
  List.find (fun d => q (snd d)) (map_to_list db).

Definition has_inviteCode (c : string) (u : User) : bool :=
  bool_decide (inviteCode u = Some c).

Definition has_publicId (p : string) (u : User) : bool :=
  String.eqb (publicId u) p.

(** POST /register.  The generated [_id], [publicId] and invite code are
    arguments.  Both [save]s go through the unique indexes of the schema;
    a rejected [save] throws and the [catch] answers 500. *)
Definition post_register (id pid code : string) (now : Z)
    (db : gmap string User) : gmap string User * response :=
  let user := mkUser pid None None now false false None in
  if bool_decide (is_Some (db !! id)) || bool_decide (is_Some (findOne (has_publicId pid) db))
  then (db, ServerError)
  else
    let db1 := <[id := user]> db in
    if bool_decide (is_Some (findOne (has_inviteCode code) db1))
    then (db1, ServerError)
    else (<[id := set_inviteCode code user]> db1,
          Json 201 (RUser id (set_inviteCode code user))).

(** GET /me *)
Definition get_me (caller : string) (now : Z) (db : gmap string User)
    : gmap string User * response :=
  match findById db caller with
  | None => (db, Json 404 (RError "User not found"))
  | Some user =>
      (<[caller := touchActivity now user]> db,
       Json 200 (RUser caller (touchActivity now user)))
  end.

(** POST /login.  The document that [User.findOne({ publicId })] returned
    is given by its [_id] in [found]: how the query matches a [publicId]
    that is not a string is left open. *)
Definition post_login (b : gmap string jsval) (found : option string)
    (now : Z) (db : gmap string User) : gmap string User * response :=
  if negb (truthy (field b "publicId"))
  then (db, Json 400 (RError "Public ID required"))
  else
    match found ≫= (fun id => (fun u => (id, u)) <$> db !! id) with
    | None => (db, Json 404 (RError "User not found"))
    | Some (id, user) =>
        (<[id := touchActivity now user]> db,
         Json 200 (RUser id (touchActivity now user)))
    end.

(** POST /link-partner, served alone: no other request runs between
    its [await]s (l.139, l.153, l.163, l.164, l.167-168), and the import
    of the notification service and [sendToUser] (l.167-172) return
    without throwing.  [inviteCode.toUpperCase()] exists on strings
    only, and [user.partnerId] needs a document: otherwise the handler
    throws into its [catch].  The handler cut at its [await]s, where
    other requests run in between and the notification may throw, is
    [LinkLoop.resume]; [LinkRace.link_alone] relates the two. *)
Definition post_link_partner (caller : string) (b : gmap string jsval)
    (db : gmap string User) : gmap string User * response :=
  let code := field b "inviteCode" in
  if negb (truthy code) then (db, Json 400 (RError "Invite code required"))
  else
    match code with
    | VStr s =>
        match findOne (has_inviteCode (toUpperCase s)) db with
        | None => (db, Json 404 (RError "Invalid invite code"))
        | Some (pid, partner) =>
            if String.eqb pid caller
            then (db, Json 400 (RError "Cannot link with yourself"))
            else if bool_decide (is_Some (partnerId partner))
            then (db, Json 400 (RError "Partner already linked"))
            else
              match findById db caller with
              | None => (db, ServerError)
              | Some user =>
                  if bool_decide (is_Some (partnerId user))
                  then (db, Json 400 (RError "You are already linked"))
                  else
                    (<[pid := set_partnerId caller partner]>
                       (<[caller := set_partnerId pid user]> db),
                     Json 200 (RLinked pid))
              end
        end
    | _ => (db, ServerError)
    end.

(** GET /partner-status.  [Date.now()] is read twice; a date compared
    with [>] is its number of milliseconds, and [null] is [0]. *)
Definition get_partner_status (caller : string) (now1 now2 : Z)
    (db : gmap string User) : response :=
  match findById db caller with
  | None => Json 200 RNotConnected
  | Some user =>
      match partnerId user with
      | None => Json 200 RNotConnected
      | Some pid =>
          match findById db pid with
          | None => Json 200 RNotConnected
          | Some partner =>
              let fiveMinutesAgo := (now1 - 5 * 60 * 1000)%Z in
              let isRecentlyActive :=
                (lastActiveAt partner >? fiveMinutesAgo)%Z in
              let typingTimeout := (now2 - 5 * 1000)%Z in
              let isTyping :=
                isTyping partner
                && (date_number (typingAt partner) >? typingTimeout)%Z in
              Json 200 (RStatus (isOnline partner && isRecentlyActive)
                                (lastActiveAt partner) isTyping)
          end
      end
  end.

(** POST /logout *)
Definition post_logout (caller : string) (db : gmap string User)
    : gmap string User * response :=
  (findByIdAndUpdate caller setOffline db, Json 200 (RMessage "Logged out")).

(** POST /heartbeat *)
Definition post_heartbeat (caller : string) (now : Z) (db : gmap string User)
    : gmap string User * response :=
  (findByIdAndUpdate caller (touchActivity now) db, Json 200 ROk).

(** POST /typing *)
Definition post_typing (caller : string) (b : gmap string jsval) (now : Z)
    (db : gmap string User) : gmap string User * response :=
  (findByIdAndUpdate caller (setTyping (field b "isTyping") now) db,
   Json 200 ROk).

(** The requests that change the collection, each served to its answer
    before the next one starts.  Link requests that overlap are in
    [LinkLoop]. *)
Inductive request :=
  | Register (id pid code : string) (now : Z)
  | Login (b : gmap string jsval) (found : option string) (now : Z)
  | Me (caller : string) (now : Z)
  | LinkPartner (caller : string) (b : gmap string jsval)
  | Logout (caller : string)
  | Heartbeat (caller : string) (now : Z)
  | Typing (caller : string) (b : gmap string jsval) (now : Z).

Definition handle (db : gmap string User) (rq : request) : gmap string User :=
  match rq with
  | Register id pid code now => fst (post_register id pid code now db)
  | Login b found now => fst (post_login b found now db)
  | Me caller now => fst (get_me caller now db)
  | LinkPartner caller b => fst (post_link_partner caller b db)
  | Logout caller => fst (post_logout caller db)
  | Heartbeat caller now => fst (post_heartbeat caller now db)
  | Typing caller b now => fst (post_typing caller b now db)
  end.

(** The collection after a history of requests, from the empty one. *)
Definition history (rqs : list request) : gmap string User :=
  fold_left handle rqs ∅.

(** [partner_of(id)] of the specification. *)
Definition partner_of (db : gmap string User) (id : string) : option string :=
  db !! id ≫= partnerId.

(** The pairing invariant. *)
Definition mutual (db : gmap string User) : Prop :=
  ∀ a b, partner_of db a = Some b → partner_of db b = Some a.

Definition no_self_link (db : gmap string User) : Prop :=
  ∀ a, partner_of db a ≠ Some a.

Definition one_partner (db : gmap string User) : Prop :=
  ∀ a b c, partner_of db a = Some c → partner_of db b = Some c → a = b.

Definition pairing_ok (db : gmap string User) : Prop :=
  mutual db ∧ no_self_link db.

(** Accounts used to exercise the statements: [ann] and [ben] register
    and link, [cyd] registers and stays alone. *)
Definition ann : string := "64f1c0aa9b3e4d0012ab34cd".
Definition ben : string := "64f1c0bb9b3e4d0012ab34ce".
Definition cyd : string := "64f1c0cc9b3e4d0012ab34cf".

Definition invite_body (s : string) : gmap string jsval :=
  {["inviteCode" := VStr s]}.
Definition typing_body (v : jsval) : gmap string jsval :=
  {["isTyping" := v]}.

Definition three_accounts : list request :=
  [Register ann "pa" "AAAA2222" 100;
   Register ben "pb" "BBBB3333" 200;
   Register cyd "pc" "CCCC4444" 300;
   LinkPartner ann (invite_body "bbbb3333");
   Heartbeat ann 1000].

Definition ann_doc : User :=
  mkUser "pa" (Some ben) (Some "AAAA2222") 1000 true false None.
Definition ben_doc : User :=
  mkUser "pb" (Some ann) (Some "BBBB3333") 200 false false None.

End Auth.

(** ** models/User.js: the invite code *)

Module Invite.

(** [const chars = 'ABCDEFGHJKLMNPQRSTUVWXYZ23456789'] *)
Definition chars : string := "ABCDEFGHJKLMNPQRSTUVWXYZ23456789".

(** [s.charAt(i)]: the character at index [i] as a string, the empty
    string when [i] is out of range. *)
Definition charAt (s : string) (i : nat) : string :=
  match String.get i s with
  | Some c => String c EmptyString
  | None => EmptyString
  end.

(** The loop of [generateInviteCode]: [n] more iterations from index [i].
    [draw i] is [Math.floor(Math.random() * chars.length)] of iteration
    [i]. *)
Fixpoint invite_loop (draw : nat -> nat) (i n : nat) (code : string) : string :=
  match n with
  | O => code
  | S n' => invite_loop draw (S i) n' (code +:+ charAt chars (draw i))
  end.

(** [for (let i = 0; i < 8; i++) code += chars.charAt(...)] *)
Definition generateInviteCode (draw : nat -> nat) : string :=
  invite_loop draw 0 8 "".

(** [Math.random()] lies in [[0, 1)], so every draw is an index of
    [chars]. *)
Definition draws_ok (draw : nat -> nat) : Prop :=
  ∀ i, (draw i < String.length chars)%nat.

Definition in_alphabet (c : ascii) : bool :=
  existsb (Ascii.eqb c) (list_ascii_of_string chars).

(** The characters the alphabet leaves out because they are easily
    confused. *)
Definition ambiguous (c : ascii) : bool :=
  existsb (Ascii.eqb c) (list_ascii_of_string "IO01").

(** What every character of a generated code satisfies. *)
Definition code_char (c : ascii) : bool :=
  in_alphabet c && negb (ambiguous c) && Ascii.eqb (upper_ascii c) c.

Definition sample_draw (i : nat) : nat := (7 * i + 3) mod 32.

End Invite.

(** ** Vocabulary for the account collection *)

Module Directory.
Import Auth.

(** The unique indexes of the schema. *)
Definition codes_unique (db : gmap string User) : Prop :=
  ∀ a b ua ub c,
    db !! a = Some ua → db !! b = Some ub →
    inviteCode ua = Some c → inviteCode ub = Some c → a = b.

Definition publicIds_unique (db : gmap string User) : Prop :=
  ∀ a b ua ub,
    db !! a = Some ua → db !! b = Some ub →
    publicId ua = publicId ub → a = b.

(** The two indexed fields of the document under [k]. *)
Definition labels (db : gmap string User) (k : string)
    : option (string * option string) :=
  (λ u, (publicId u, inviteCode u)) <$> db !! k.

(** [ann] and [ben] registered, nobody linked yet. *)
Definition two_singles : list request :=
  [Register ann "pa" "AAAA2222" 100;
   Register ben "pb" "BBBB3333" 200].

Definition ann_single : User :=
  mkUser "pa" None (Some "AAAA2222") 100 false false None.
Definition ben_single : User :=
  mkUser "pb" None (Some "BBBB3333") 200 false false None.

(** [ben]'s invite code is the one [generateInviteCode] builds from
    [sample_draw]. *)
Definition issued_accounts : list request :=
  [Register ann "pa" "AAAA2222" 100;
   Register ben "pb" (Invite.generateInviteCode Invite.sample_draw) 200].

Definition ben_issued : User :=
  mkUser "pb" None (Some (Invite.generateInviteCode Invite.sample_draw))
         200 false false None.

(** [now - since < window], the test behind both derived verdicts. *)
Definition within (window now since : Z) : bool := (now - since <? window)%Z.

Definition typing_on : gmap string jsval := {["isTyping" := VBool true]}.
Definition login_body : gmap string jsval := {["publicId" := VStr "pa"]}.

(** The caller of a request that acts on the caller's own document. *)
Definition presence_write (c : string) (rq : request) : Prop :=
  match rq with
  | Me c' _ | Logout c' | Heartbeat c' _ | Typing c' _ _ => c' = c
  | _ => False
  end.

(** What the partner of a user is shown. *)
Definition shown (r : response) : option (bool * Z * bool) :=
  match payload r with
  | RStatus online last typing => Some (online, last, typing)
  | _ => None
  end.

End Directory.

(** ** Push notifications: services/NotificationService.js and the
    notification routes *)

Module Notifications.

(** [{ title, body, type, data }] *)
Record notification := mkNote {
  title : string;
  n_body : jsval;
  n_type : string;
  data : option jsval;
}.

(** How [webpush.sendNotification] ends: it resolves, or throws an error
    with its [statusCode] (none when the error carries no such field). *)
Inductive push_outcome :=
  | Delivered
  | Refused (statusCode : option nat).

(** The part of the world the notifications add: the endpoint of the
    [pushSubscription] of each user document that has one, and the calls
    made to the push service. *)
Record state := mkState {
  subs : gmap string string;
  attempts : list (string * notification);
}.

(** [error.statusCode === 410 || error.statusCode === 404] *)
Definition expired (code : option nat) : bool :=
  match code with
  | Some n => (n =? 410)%nat || (n =? 404)%nat
  | None => false
  end.

(** [sendToUser(userId, payload)]; [outcome] is what the push service
    does if it is called. *)
Definition sendToUser (outcome : push_outcome) (db : gmap string User)
    (userId : string) (note : notification) (s : state) : state * bool :=
  match findById db userId with
  | None => (s, false)
  | Some _ =>
      match subs s !! userId with
      | None => (s, false)
      | Some endpoint =>
          if String.eqb endpoint "" then (s, false)
          else
            let tried := attempts s ++ [(endpoint, note)] in
            match outcome with
            | Delivered => (mkState (subs s) tried, true)
            | Refused code =>
                if expired code
                then (mkState (delete userId (subs s)) tried, false)
                else (mkState (subs s) tried, false)
            end
      end
  end.

Inductive res_body :=
  | RSuccess
  | RError (msg : string).

Abbreviation response := (response res_body).

(** [signalLabel || 'Your partner sent you a signal'] *)
Definition label_or_default (v : jsval) : jsval :=
  if truthy v then v else VStr "Your partner sent you a signal".

Definition signal_note (b : gmap string jsval) : notification :=
  mkNote "Us. 💕" (label_or_default (field b "signalLabel")) "SIGNAL"
         (Some (VObj [Field "signalType" (field b "signalType")])).

(** POST /send-signal *)
Definition post_send_signal (outcome : push_outcome) (caller : string)
    (b : gmap string jsval) (db : gmap string User) (s : state)
    : state * response :=
  match WebRTC.partner_of (findById db caller) with
  | None => (s, Json 400 (RError "No partner connected"))
  | Some partner =>
      (fst (sendToUser outcome db partner (signal_note b) s),
       Json 200 RSuccess)
  end.

Definition hello : notification :=
  mkNote "Us." (VStr "hello") "TEST" None.

Definition one_subscriber : state :=
  mkState {[WebRTC.bob := "https://push.example/bob"]} [].

End Notifications.

(** ** Vocabulary for mixed sequences of sending requests *)

Module Exchange.
Import WebRTC.

(** The requests that write to the partner's mailbox when the caller has
    one. *)
Definition deliverable (rq : request) : bool :=
  match rq with
  | IceCandidate _ => true
  | Poll => false
  | rq => accepted rq
  end.

Definition request_effect (caller : string) (y : Z * request) : effect :=
  match y.2 with
  | IceCandidate b => Appends (mkIce (field b "candidate") caller y.1)
  | rq =>
      match written caller y.1 rq with
      | Some e => Sets e
      | None => Nothing
      end
  end.

Definition mixed_requests : list (Z * request) :=
  [(1000%Z, IceCandidate (candidate_body "c1"));
   (1001%Z, Offer (sdp_body "first"));
   (1002%Z, IceCandidate (candidate_body "c2"));
   (1003%Z, End)].

End Exchange.

(** ** POST /link-partner, cut at its [await]s

    The handler suspends at [User.findOne] (l.139), [User.findById]
    (l.153), [user.save()] (l.163), [partner.save()] (l.164) and at the
    notification (l.167-172); other requests run in between.  Each
    database call takes effect when its [await] is resumed.
    [Auth.post_link_partner] is this handler served alone
    ([LinkRace.link_alone]). *)

Module LinkLoop.
Import Auth.

(** A request in flight, by the [await] it is suspended at. *)
Inductive task :=
  | AwaitPartner (caller code : string)
  | AwaitUser (caller pid : string)
  | AwaitUserSave (caller pid : string)
  | AwaitPartnerSave (caller pid : string)
  | AwaitNotify (caller pid : string).

Definition task_caller (t : task) : string :=
  match t with
  | AwaitPartner c _ | AwaitUser c _ | AwaitUserSave c _
  | AwaitPartnerSave c _ | AwaitNotify c _ => c
  end.

Inductive outcome :=
  | Answer (r : response)
  | Suspend (t : task).

(** Up to the first [await]: the code must be truthy and a string. *)
Definition arrive (caller : string) (b : gmap string jsval) : outcome :=
  let code := field b "inviteCode" in
  if negb (truthy code) then Answer (Json 400 (RError "Invite code required"))
  else
    match code with
    | VStr s => Suspend (AwaitPartner caller (toUpperCase s))
    | _ => Answer ServerError
    end.

(** [doc.save()] of a loaded document whose only modified path is
    [partnerId]: that field is set on the stored document. *)
Definition save_partnerId (id p : string) (t : task) (db : gmap string User)
    : gmap string User * outcome :=
  match db !! id with
  | Some u => (<[id := set_partnerId p u]> db, Suspend t)
  | None => (db, Answer ServerError)
  end.

(** One resumption.  [loaded] tells whether the import of the
    notification service and [sendToUser] return without throwing. *)
Definition resume (loaded : bool) (t : task) (db : gmap string User)
    : gmap string User * outcome :=
  match t with
  | AwaitPartner caller code =>
      match findOne (has_inviteCode code) db with
      | None => (db, Answer (Json 404 (RError "Invalid invite code")))
      | Some (pid, partner) =>
          if String.eqb pid caller
          then (db, Answer (Json 400 (RError "Cannot link with yourself")))
          else if bool_decide (is_Some (partnerId partner))
          then (db, Answer (Json 400 (RError "Partner already linked")))
          else (db, Suspend (AwaitUser caller pid))
      end
  | AwaitUser caller pid =>
      match findById db caller with
      | None => (db, Answer ServerError)
      | Some user =>
          if bool_decide (is_Some (partnerId user))
          then (db, Answer (Json 400 (RError "You are already linked")))
          else (db, Suspend (AwaitUserSave caller pid))
      end
  | AwaitUserSave caller pid =>
      save_partnerId caller pid (AwaitPartnerSave caller pid) db
  | AwaitPartnerSave caller pid =>
      save_partnerId pid caller (AwaitNotify caller pid) db
  | AwaitNotify caller pid =>
      (db, Answer (if loaded then Json 200 (RLinked pid) else ServerError))
  end.

(** The handler run from arrival to its answer with nothing in between. *)
Fixpoint finish (fuel : nat) (loaded : bool) (o : outcome)
    (db : gmap string User) : gmap string User * option response :=
  match o with
  | Answer r => (db, Some r)
  | Suspend t =>
      match fuel with
      | O => (db, None)
      | S fuel' =>
          let '(db', o') := resume loaded t db in finish fuel' loaded o' db'
      end
  end.

Definition serve_alone (loaded : bool) (caller : string)
    (b : gmap string jsval) (db : gmap string User)
    : gmap string User * option response :=
  finish 5 loaded (arrive caller b) db.

(** The single database writes of the other routes: a [$set] of fields
    on one document ([save] after /login and /me, the second [save] of
    /register, [findByIdAndUpdate]), and the insert of a new document
    (the first [save] of /register), which a taken [_id] rejects. *)
Inductive write :=
  | SetFields (id : string) (upd : User -> User)
  | Insert (id : string) (u : User).

Definition apply_write (db : gmap string User) (w : write) : gmap string User :=
  match w with
  | SetFields id upd => findByIdAndUpdate id upd db
  | Insert id u =>
      match db !! id with
      | None => <[id := u]> db
      | Some _ => db
      end
  end.

(** None of those routes writes [partnerId]; a new document has none. *)
Definition write_ok (w : write) : Prop :=
  match w with
  | SetFields _ upd => ∀ u, partnerId (upd u) = partnerId u
  | Insert _ u => partnerId u = None
  end.

Definition not_link (rq : request) : Prop :=
  match rq with
  | LinkPartner _ _ => False
  | _ => True
  end.

(** The collection, the link requests in flight, the answers sent. *)
Record world := World {
  accounts : gmap string User;
  tasks : list task;
  answers : list (string * response);
}.

Inductive event :=
  | Arrive (caller : string) (b : gmap string jsval)
  | Resume (i : nat) (loaded : bool)
  | Other (w : write).

Definition settle (w : world) (keep : list task) (caller : string)
    (db : gmap string User) (o : outcome) : world :=
  match o with
  | Answer r => World db keep (answers w ++ [(caller, r)])
  | Suspend t => World db (keep ++ [t]) (answers w)
  end.

Definition exec (w : world) (ev : event) : world :=
  match ev with
  | Arrive caller b => settle w (tasks w) caller (accounts w) (arrive caller b)
  | Resume i loaded =>
      match tasks w !! i with
      | None => w
      | Some t =>
          let '(db', o) := resume loaded t (accounts w) in
          settle w (delete i (tasks w)) (task_caller t) db' o
      end
  | Other wr => World (apply_write (accounts w) wr) (tasks w) (answers w)
  end.

Definition run (w : world) (evs : list event) : world := fold_left exec evs w.

Definition event_ok (ev : event) : Prop :=
  match ev with
  | Other wr => write_ok wr
  | _ => True
  end.



(** An account that exists and has no partner. *)
Definition unlinked (db : gmap string User) (x : string) : Prop :=
  is_Some (db !! x) ∧ partner_of db x = None.

(** Link requests that do not overlap: each arrives when no other is in
    flight.  The writes of the other routes may fall anywhere. *)
Fixpoint one_at_a_time (w : world) (evs : list event) : Prop :=
  match evs with
  | [] => True
  | ev :: evs' =>
      match ev with
      | Arrive _ _ => tasks w = []
      | _ => True
      end ∧ one_at_a_time (exec w ev) evs'
  end.

(** What holds of the collection while the single request in flight is
    suspended at each of its [await]s. *)
Definition in_flight_ok (db : gmap string User) (t : task) : Prop :=
  match t with
  | AwaitPartner _ _ => pairing_ok db
  | AwaitUser c pid => pairing_ok db ∧ pid ≠ c ∧ unlinked db pid
  | AwaitUserSave c pid =>
      pairing_ok db ∧ pid ≠ c ∧ unlinked db pid ∧ unlinked db c
  | AwaitPartnerSave c pid =>
      ∃ u, db !! pid = Some u ∧ pairing_ok (<[pid := set_partnerId c u]> db)
  | AwaitNotify _ _ => pairing_ok db
  end.

Definition serial_ok (w : world) : Prop :=
  match tasks w with
  | [] => pairing_ok (accounts w)
  | [t] => in_flight_ok (accounts w) t
  | _ => False
  end.

(** Three registered accounts, nobody linked. *)
Definition three_singles : list request :=
  [Register ann "pa" "AAAA2222" 100;
   Register ben "pb" "BBBB3333" 200;
   Register cyd "pc" "CCCC4444" 300].

Definition at_rest : world := World (history three_singles) [] [].

(** [ann] and [cyd] both send [ben]'s code; both pass every check
    before either saves. *)
Definition race : list event :=
  [Arrive ann (invite_body "bbbb3333");
   Arrive cyd (invite_body "BBBB3333");
   Resume 0 true; Resume 0 true;
   Resume 0 true; Resume 0 true;
   Resume 0 true; Resume 1 true;
   Resume 0 true; Resume 0 true;
   Resume 0 true; Resume 0 true].

(** One request, stopped between [user.save()] and [partner.save()]. *)
Definition half_saved : list event :=
  [Arrive ann (invite_body "bbbb3333");
   Resume 0 true; Resume 0 true; Resume 0 true].

(** The same two requests, one after the other. *)
Definition in_turn : list event :=
  [Arrive ann (invite_body "bbbb3333");
   Resume 0 true; Resume 0 true; Resume 0 true; Resume 0 true; Resume 0 true;
   Arrive cyd (invite_body "BBBB3333");
   Resume 0 true; Resume 0 true; Resume 0 true; Resume 0 true; Resume 0 true].

(** One request with a logout of [ben] between its two [save]s, then
    the other request. *)
Definition in_turn_with_logout : list event :=
  [Arrive ann (invite_body "bbbb3333");
   Resume 0 true; Resume 0 true; Resume 0 true;
   Other (SetFields ben setOffline);
   Resume 0 true; Resume 0 true;
   Arrive cyd (invite_body "BBBB3333");
   Resume 0 true].

End LinkLoop.

(** * Properties of the signaling relay *)

Module Relay.
Import WebRTC.

(** ** Keys of the store *)

Lemma iceKey_length id : String.length (iceKey id) = (4 + String.length id)%nat.
Proof. reflexivity. Qed.

Lemma iceKey_ne id : iceKey id ≠ id.
Proof.
  intros E. apply (f_equal String.length) in E.
  rewrite iceKey_length in E. lia.
Qed.

Lemma iceKey_inj a b : iceKey a = iceKey b → a = b.
Proof. unfold iceKey. simpl. by intros [= E]. Qed.

Lemma iceKey_not_object_id id : is_object_id (iceKey id) = false.
Proof. unfold is_object_id. simpl. apply andb_false_r. Qed.

Lemma object_id_not_iceKey id k : is_object_id id = true → id ≠ iceKey k.
Proof. intros H ->. rewrite iceKey_not_object_id in H. discriminate. Qed.

(** ** Well-formed stores *)

Lemma store_ok_empty : store_ok ∅.
Proof. apply map_Forall_empty. Qed.

Lemma store_ok_delete k st : store_ok st → store_ok (delete k st).
Proof. apply map_Forall_delete. Qed.

Lemma store_ok_insert k v st : val_ok k v → store_ok st → store_ok (<[k := v]> st).
Proof. intros. by apply map_Forall_insert_2. Qed.

Lemma store_ok_ice st r :
  store_ok st → st !! iceKey r = None ∨ st !! iceKey r = Some (SIce (queue st r)).
Proof.
  intros Hok. unfold queue. destruct (st !! iceKey r) as [[s|cs]|] eqn:E; auto.
  apply Hok in E. simpl in E. by rewrite iceKey_not_object_id in E.
Qed.

Lemma store_ok_slot st r v :
  store_ok st → is_object_id r = true → st !! r = Some v → ∃ s, v = SSignal s.
Proof.
  intros Hok Hr E. destruct v as [s|cs]; [by eexists|].
  apply Hok in E as [_ [id ->]]. by rewrite iceKey_not_object_id in Hr.
Qed.

(** ** One request at a time *)

Lemma serve_poll db now r st : serve db now r Poll st = get_poll r st.
Proof. unfold serve, start. by destruct (get_poll r st). Qed.

Lemma serve_send db now caller rq st p e :
  partner_of (db !! caller) = Some p →
  accepted rq = true →
  written caller now rq = Some e →
  serve db now caller rq st = (setEntry p e st, ok RSuccess).
Proof.
  intros Hp Hacc Hw.
  destruct rq as [b|b|b| |]; simpl in *; try discriminate;
    injection Hw as <-;
    unfold serve, start, post_offer, post_answer, post_end, send_sdp, findById;
    rewrite ?Hacc; simpl; by rewrite Hp.
Qed.

Lemma serve_ice db now caller b st p :
  partner_of (db !! caller) = Some p →
  st !! iceKey p = None ∨ st !! iceKey p = Some (SIce (queue st p)) →
  serve db now caller (IceCandidate b) st =
    (<[iceKey p := SIce (queue st p ++ [mkIce (field b "candidate") caller now])]> st,
     ok RSuccess).
Proof.
  intros Hp Hq. unfold serve, start, post_ice_candidate, findById.
  rewrite Hp. unfold queue in *.
  destruct Hq as [-> | ->]; done.
Qed.

(** A poll removes both keys of the caller and returns what they held. *)
Lemma get_poll_local st r :
  st !! iceKey r = None ∨ (∃ c cs, st !! iceKey r = Some (SIce (c :: cs))) →
  get_poll r st =
    (delete (iceKey r) (delete r st), ok (RPoll (st !! r) (SIce (queue st r)))).
Proof.
  intros Hq. unfold get_poll, queue.
  assert (delete r st = match st !! r with Some _ => delete r st | None => st end) as <-.
  { destruct (st !! r) eqn:E; [done | by rewrite delete_id]. }
  destruct Hq as [E | (c & cs & E)]; rewrite E; simpl; [|done].
  rewrite (delete_id (delete r st)); [done|].
  rewrite lookup_delete_ne; [done | apply not_eq_sym, iceKey_ne].
Qed.

Lemma drained_slot (st : gmap string store_val) r :
  delete (iceKey r) (delete r st) !! r = None.
Proof.
  rewrite lookup_delete_ne by apply iceKey_ne. apply lookup_delete_eq.
Qed.

Lemma drained_queue (st : gmap string store_val) r :
  delete (iceKey r) (delete r st) !! iceKey r = None.
Proof. apply lookup_delete_eq. Qed.

Lemma get_poll_empty st r :
  st !! r = None → st !! iceKey r = None →
  get_poll r st = (st, ok (RPoll None (SIce []))).
Proof. intros H1 H2. unfold get_poll. by rewrite H1, H2. Qed.

Lemma polls_empty db st r ts :
  st !! r = None → st !! iceKey r = None →
  serve_all db (polls r ts) st =
    (st, replicate (length ts) (ok (RPoll None (SIce [])))).
Proof.
  intros H1 H2. unfold polls. induction ts as [|t ts IH]; [done|].
  cbn [map serve_all length replicate].
  rewrite serve_poll, get_poll_empty, IH by done. done.
Qed.

Lemma get_poll_drain st r :
  store_ok st →
  get_poll r st =
    (delete (iceKey r) (delete r st), ok (RPoll (st !! r) (SIce (queue st r)))).
Proof.
  intros Hok. apply get_poll_local.
  destruct (store_ok_ice st r Hok) as [E | E]; [by left | right].
  pose proof (Hok _ _ E) as [Hne _].
  destruct (queue st r) as [|c cs]; [done | eauto].
Qed.

(** ** Sequences of requests *)

Lemma serve_all_ice db r reqs : ∀ st,
  st !! iceKey r = None ∨ st !! iceKey r = Some (SIce (queue st r)) →
  Forall (λ x, partner_of (db !! x.1.2) = Some r) reqs →
  ∃ st1,
    serve_all db (map ice_request reqs) st
      = (st1, replicate (length reqs) (ok RSuccess)) ∧
    (reqs = [] → st1 = st) ∧
    (reqs ≠ [] →
       st1 !! iceKey r = Some (SIce (queue st r ++ map fragment reqs))) ∧
    (∀ k, k ≠ iceKey r → st1 !! k = st !! k).
Proof.
  induction reqs as [|[[t c] b] reqs IH]; intros st Hq Hall.
  - exists st. repeat split; done.
  - apply Forall_cons in Hall as [Hc Hall]. simpl in Hc.
    cbn [map ice_request serve_all fst snd length replicate].
    rewrite (serve_ice db t c b st r Hc Hq).
    set (st' := <[iceKey r := _]> st).
    assert (st' !! iceKey r = Some (SIce (queue st r ++ [mkIce (field b "candidate") c t]))) as E
      by apply lookup_insert_eq.
    assert (queue st' r = queue st r ++ [mkIce (field b "candidate") c t]) as Eq
      by (unfold queue at 1; by rewrite E).
    destruct (IH st') as (st1 & Hrun & Hnil & Hcons & Hframe); [right; by rewrite Eq | done |].
    exists st1. rewrite Hrun. repeat split; [done | |].
    + intros _. destruct reqs as [|x reqs].
      * rewrite Hnil by done. by rewrite E.
      * rewrite Hcons by done. rewrite Eq, <- app_assoc. done.
    + intros k Hk. rewrite Hframe by done. by apply lookup_insert_ne.
Qed.

Lemma serve_all_sends db A B reqs : ∀ st,
  partner_of (db !! A) = Some B →
  Forall (λ y : Z * request, accepted y.2 = true) reqs →
  ∃ st1,
    serve_all db (map (sent_by A) reqs) st
      = (st1, replicate (length reqs) (ok RSuccess)) ∧
    (reqs = [] → st1 = st) ∧
    (∀ x, last reqs = Some x →
       ∃ e, written A x.1 x.2 = Some e ∧ st1 !! B = Some (SSignal e)) ∧
    (∀ k, k ≠ B → st1 !! k = st !! k).
Proof.
  induction reqs as [|[t rq] reqs IH]; intros st Hp Hall.
  - exists st. repeat split; done.
  - apply Forall_cons in Hall as [Hacc Hall]. simpl in Hacc.
    assert (∃ e, written A t rq = Some e) as [e He]
      by (destruct rq; try discriminate; eexists; reflexivity).
    cbn [map sent_by serve_all fst snd length replicate].
    rewrite (serve_send db t A rq st B e Hp Hacc He).
    destruct (IH (setEntry B e st) Hp Hall) as (st1 & Hrun & Hnil & Hlast & Hframe).
    exists st1. rewrite Hrun. repeat split; [done | |].
    + intros x Hx. destruct reqs as [|y reqs].
      * injection Hx as <-. exists e. split; [done|].
        rewrite (Hnil eq_refl). apply lookup_insert_eq.
      * apply Hlast. by rewrite last_cons_cons in Hx.
    + intros k Hk. rewrite Hframe by done. by apply lookup_insert_ne.
Qed.

(** ** The claims about sending and polling *)

(** C1.  With [A] paired to [B]: an offer from [A] carrying a payload,
    immediately followed by a poll from [B], hands [B] exactly the entry
    [{type: offer, sdp, from: A, timestamp}] and removes it from [B]'s
    slot; every later poll from [B] with no write in between returns no
    entry and an empty candidate sequence. *)
Theorem offer_then_poll (db : gmap string User) (st : gmap string store_val)
    (A B : string) (b : gmap string jsval) (now t : Z) (ts : list Z) :
  store_ok st →
  partner_of (db !! A) = Some B →
  truthy (field b "sdp") = true →
  ∃ st1 st2,
    serve db now A (Offer b) st = (st1, ok RSuccess) ∧
    serve db t B Poll st1 =
      (st2, ok (RPoll (Some (SSignal (mkSignal offer (Some (field b "sdp")) A now)))
                      (SIce (queue st B)))) ∧
    st2 !! B = None ∧
    serve_all db (polls B ts) st2 =
      (st2, replicate (length ts) (ok (RPoll None (SIce [])))).
Proof.
  intros Hok Hp Hsdp.
  set (e := mkSignal offer (Some (field b "sdp")) A now).
  exists (setEntry B e st), (delete (iceKey B) (delete B (setEntry B e st))).
  assert (setEntry B e st !! iceKey B = st !! iceKey B) as Eice
    by (apply lookup_insert_ne, not_eq_sym, iceKey_ne).
  split; [by apply serve_send|].
  split.
  - rewrite serve_poll, get_poll_local.
    + unfold queue. rewrite Eice. unfold setEntry. by rewrite lookup_insert_eq.
    + rewrite Eice. destruct (store_ok_ice st B Hok) as [E | E]; [by left | right].
      pose proof (Hok _ _ E) as [Hne _].
      destruct (queue st B) as [|c cs]; [done | eauto].
  - split; [apply drained_slot|].
    apply polls_empty; [apply drained_slot | apply drained_queue].
Qed.

Lemma offer_then_poll_witness :
  store_ok no_mail ∧
  partner_of (couple !! alice) = Some bob ∧
  truthy (field (sdp_body "v=0") "sdp") = true ∧
  ∃ st1 st2,
    serve couple 1000 alice (Offer (sdp_body "v=0")) no_mail = (st1, ok RSuccess) ∧
    serve couple 1001 bob Poll st1 =
      (st2, ok (RPoll (Some (SSignal (mkSignal offer
                        (Some (field (sdp_body "v=0") "sdp")) alice 1000)))
                      (SIce (queue no_mail bob)))) ∧
    st2 !! bob = None ∧
    serve_all couple (polls bob [1002; 1003]%Z) st2 =
      (st2, replicate (length [1002; 1003]%Z) (ok (RPoll None (SIce [])))).
Proof.
  split; [apply store_ok_empty|].
  split; [reflexivity|]. split; [reflexivity|].
  apply (offer_then_poll couple no_mail alice bob (sdp_body "v=0") 1000 1001
           [1002; 1003]%Z);
    [apply store_ok_empty | reflexivity | reflexivity].
Defined.

(** C2.  [N >= 0] candidate fragments appended for recipient [r], whose
    queue had nothing pending: the next poll of [r] returns exactly the
    [N] fragments in the order they were appended, and a second poll with
    no append in between returns an empty sequence. *)
Theorem candidates_drain_in_order (db : gmap string User)
    (st : gmap string store_val) (r : string)
    (reqs : list (Z * string * gmap string jsval)) (t t' : Z) :
  st !! iceKey r = None →
  Forall (λ x, partner_of (db !! x.1.2) = Some r) reqs →
  ∃ st1 st2,
    serve_all db (map ice_request reqs) st
      = (st1, replicate (length reqs) (ok RSuccess)) ∧
    serve db t r Poll st1
      = (st2, ok (RPoll (st !! r) (SIce (map fragment reqs)))) ∧
    serve db t' r Poll st2 = (st2, ok (RPoll None (SIce []))).
Proof.
  intros Hfresh Hall.
  destruct (serve_all_ice db r reqs st (or_introl Hfresh) Hall)
    as (st1 & Hrun & Hnil & Hcons & Hframe).
  exists st1, (delete (iceKey r) (delete r st1)).
  assert (queue st r = []) as Hq0 by (unfold queue; by rewrite Hfresh).
  split; [done|]. rewrite !serve_poll. split.
  - rewrite get_poll_local.
    + rewrite (Hframe r) by (apply not_eq_sym, iceKey_ne).
      destruct reqs as [|x reqs].
      * rewrite (Hnil eq_refl). by rewrite Hq0.
      * unfold queue. rewrite Hcons by done. by rewrite Hq0.
    + destruct reqs as [|x reqs].
      * left. by rewrite (Hnil eq_refl).
      * right. rewrite Hcons by done. rewrite Hq0. simpl. eauto.
  - apply get_poll_empty; [apply drained_slot | apply drained_queue].
Qed.

Lemma candidates_drain_in_order_witness :
  no_mail !! iceKey bob = None ∧
  Forall (λ x, partner_of (couple !! x.1.2) = Some bob) three_candidates ∧
  ∃ st1 st2,
    serve_all couple (map ice_request three_candidates) no_mail
      = (st1, replicate (length three_candidates) (ok RSuccess)) ∧
    serve couple 1003 bob Poll st1
      = (st2, ok (RPoll (no_mail !! bob) (SIce (map fragment three_candidates)))) ∧
    serve couple 1004 bob Poll st2 = (st2, ok (RPoll None (SIce []))).
Proof.
  assert (Forall (λ x, partner_of (couple !! x.1.2) = Some bob) three_candidates)
    as H by (repeat constructor).
  split; [reflexivity|]. split; [exact H|].
  exact (candidates_drain_in_order couple no_mail bob three_candidates
           1003 1004 eq_refl H).
Defined.

(** C3.  With [A] paired to [B]: after any non-empty sequence of accepted
    offer / answer / end requests from [A], [B]'s slot holds exactly the
    entry of the last request, and [B]'s next poll returns that single
    entry and empties the slot. *)
Theorem last_write_wins (db : gmap string User) (st : gmap string store_val)
    (A B : string) (reqs : list (Z * request)) (x : Z * request) (t : Z) :
  partner_of (db !! A) = Some B →
  Forall (λ y : Z * request, accepted y.2 = true) (reqs ++ [x]) →
  ∃ st1 st2 e cands,
    written A x.1 x.2 = Some e ∧
    serve_all db (map (sent_by A) (reqs ++ [x])) st
      = (st1, replicate (length (reqs ++ [x])) (ok RSuccess)) ∧
    st1 !! B = Some (SSignal e) ∧
    serve db t B Poll st1 = (st2, ok (RPoll (Some (SSignal e)) cands)) ∧
    st2 !! B = None.
Proof.
  intros Hp Hall.
  destruct (serve_all_sends db A B (reqs ++ [x]) st Hp Hall)
    as (st1 & Hrun & _ & Hlast & _).
  destruct (Hlast x (last_snoc _ _)) as (e & He & Hslot).
  destruct (get_poll B st1) as [st2 r2] eqn:Hpoll.
  exists st1, st2, e, (default (SIce []) (st1 !! iceKey B)).
  repeat split; try done.
  - rewrite serve_poll, Hpoll. unfold get_poll in Hpoll.
    rewrite Hslot in Hpoll. by injection Hpoll as _ <-.
  - unfold get_poll in Hpoll. rewrite Hslot in Hpoll.
    injection Hpoll as <- _.
    destruct (has_length _).
    + rewrite lookup_delete_ne by apply iceKey_ne. apply lookup_delete_eq.
    + apply lookup_delete_eq.
Qed.

(** Two offers in a row: only the second is delivered. *)
Lemma last_write_wins_witness :
  partner_of (couple !! alice) = Some bob ∧
  Forall (λ y : Z * request, accepted y.2 = true) ([first_offer] ++ [second_offer]) ∧
  ∃ st1 st2 e cands,
    written alice second_offer.1 second_offer.2 = Some e ∧
    serve_all couple (map (sent_by alice) ([first_offer] ++ [second_offer])) no_mail
      = (st1, replicate (length ([first_offer] ++ [second_offer])) (ok RSuccess)) ∧
    st1 !! bob = Some (SSignal e) ∧
    serve couple 1002 bob Poll st1 = (st2, ok (RPoll (Some (SSignal e)) cands)) ∧
    st2 !! bob = None.
Proof.
  assert (Forall (λ y : Z * request, accepted y.2 = true)
            ([first_offer] ++ [second_offer]))
    as H by (repeat constructor).
  split; [reflexivity|]. split; [exact H|].
  exact (last_write_wins couple no_mail alice bob [first_offer] second_offer
           1002 eq_refl H).
Defined.

(** ** The pairing precondition and the payload checks *)

Lemma serve_unpaired_sdp db now caller ty what b st :
  partner_of (db !! caller) = None →
  match send_sdp ty what caller b with
  | Respond r => (st, r)
  | AwaitFindById id k => k (findById db id) now st
  end = (st, if truthy (field b "sdp") then NoPartnerLinked
             else MissingPayload what).
Proof.
  intros Hp. unfold send_sdp, findById.
  destruct (truthy (field b "sdp")); simpl; [by rewrite Hp | done].
Qed.

(** C4, as the code has it.  For an identity with no resolvable partner
    (no document, or [partnerId] null): a candidate request, and an offer
    or answer that carries a payload, fail with [NoPartnerLinked]; an
    offer or answer without payload fails with [MissingPayload], because
    the payload is tested first.  None of them writes to the store. *)
Theorem unpaired_send_rejected (db : gmap string User) (caller : string)
    (b : gmap string jsval) (now : Z) (st : gmap string store_val) :
  partner_of (db !! caller) = None →
  serve db now caller (Offer b) st
    = (st, if truthy (field b "sdp") then NoPartnerLinked
           else MissingPayload "offer") ∧
  serve db now caller (Answer b) st
    = (st, if truthy (field b "sdp") then NoPartnerLinked
           else MissingPayload "answer") ∧
  serve db now caller (IceCandidate b) st = (st, NoPartnerLinked).
Proof.
  intros Hp. repeat split.
  - apply (serve_unpaired_sdp db now caller offer "offer" b st Hp).
  - apply (serve_unpaired_sdp db now caller answer "answer" b st Hp).
  - unfold serve, start, post_ice_candidate, findById. by rewrite Hp.
Qed.

Lemma unpaired_send_rejected_witness :
  partner_of (couple !! carol) = None ∧
  serve couple 1000 carol (Offer (sdp_body "v=0")) no_mail
    = (no_mail, if truthy (field (sdp_body "v=0") "sdp") then NoPartnerLinked
                else MissingPayload "offer") ∧
  serve couple 1000 carol (Answer (sdp_body "v=0")) no_mail
    = (no_mail, if truthy (field (sdp_body "v=0") "sdp") then NoPartnerLinked
                else MissingPayload "answer") ∧
  serve couple 1000 carol (IceCandidate (sdp_body "v=0")) no_mail
    = (no_mail, NoPartnerLinked).
Proof.
  split; [reflexivity|].
  exact (unpaired_send_rejected couple carol (sdp_body "v=0") 1000 no_mail eq_refl).
Defined.

(** C4 as stated fails: an unpaired caller who sends an offer without
    [sdp] is answered [MissingPayload], not [NoPartnerLinked]. *)
Lemma unpaired_offer_without_payload :
  partner_of (couple !! carol) = None ∧
  serve couple 1000 carol (Offer no_body) no_mail
    = (no_mail, MissingPayload "offer") ∧
  serve couple 1000 carol (Offer no_body) no_mail
    ≠ (no_mail, NoPartnerLinked).
Proof.
  split; [reflexivity|]. split; [reflexivity|].
  intros E. discriminate E.
Qed.

(** C6.  For a paired caller: an offer or an answer whose [sdp] is absent
    (or otherwise falsy) fails with [MissingPayload] and writes nothing,
    whereas a candidate request is never validated: whatever its body,
    absent [candidate] included, it appends the fragment and acknowledges
    success. *)
Theorem payload_validation (db : gmap string User) (caller p : string)
    (b : gmap string jsval) (now : Z) (st : gmap string store_val) :
  partner_of (db !! caller) = Some p →
  store_ok st →
  (truthy (field b "sdp") = false →
     serve db now caller (Offer b) st = (st, MissingPayload "offer") ∧
     serve db now caller (Answer b) st = (st, MissingPayload "answer")) ∧
  (b !! "sdp" = None → truthy (field b "sdp") = false) ∧
  serve db now caller (IceCandidate b) st
    = (<[iceKey p := SIce (queue st p ++ [mkIce (field b "candidate") caller now])]> st,
       ok RSuccess) ∧
  (b !! "candidate" = None → field b "candidate" = VUndefined).
Proof.
  intros Hp Hok. split; [|split; [|split]].
  - intros Hsdp. split.
    + unfold serve, start, post_offer, send_sdp. by rewrite Hsdp.
    + unfold serve, start, post_answer, send_sdp. by rewrite Hsdp.
  - unfold field. by intros ->.
  - apply serve_ice; [done | by apply store_ok_ice].
  - unfold field. by intros ->.
Qed.

Lemma payload_validation_witness :
  partner_of (couple !! alice) = Some bob ∧
  store_ok no_mail ∧
  (truthy (field no_body "sdp") = false →
     serve couple 1000 alice (Offer no_body) no_mail
       = (no_mail, MissingPayload "offer") ∧
     serve couple 1000 alice (Answer no_body) no_mail
       = (no_mail, MissingPayload "answer")) ∧
  (no_body !! "sdp" = None → truthy (field no_body "sdp") = false) ∧
  serve couple 1000 alice (IceCandidate no_body) no_mail
    = (<[iceKey bob := SIce (queue no_mail bob
                             ++ [mkIce (field no_body "candidate") alice 1000])]>
         no_mail,
       ok RSuccess) ∧
  (no_body !! "candidate" = None → field no_body "candidate" = VUndefined).
Proof.
  split; [reflexivity|]. split; [apply store_ok_empty|].
  exact (payload_validation couple alice bob no_body 1000 no_mail
           eq_refl store_ok_empty).
Defined.

(** C7.  For an identity with no resolvable partner, [POST /end] answers
    with the success acknowledgement and leaves the store as it was. *)
Theorem unpaired_end_tolerated (db : gmap string User) (caller : string)
    (now : Z) (st : gmap string store_val) :
  partner_of (db !! caller) = None →
  serve db now caller End st = (st, ok RSuccess).
Proof.
  intros Hp. unfold serve, start, post_end, findById. by rewrite Hp.
Qed.

Lemma unpaired_end_tolerated_witness :
  partner_of (couple !! carol) = None ∧
  serve couple 1000 carol End no_mail = (no_mail, ok RSuccess).
Proof.
  split; [reflexivity|].
  exact (unpaired_end_tolerated couple carol 1000 no_mail eq_refl).
Defined.

(** ** The event loop: one mailbox along a schedule *)

Lemma queue_insert_ne (st : gmap string store_val) k v r :
  k ≠ iceKey r → queue (<[k := v]> st) r = queue st r.
Proof. intros H. unfold queue. by rewrite lookup_insert_ne. Qed.

Lemma queue_delete_ne (st : gmap string store_val) k r :
  k ≠ iceKey r → queue (delete k st) r = queue st r.
Proof. intros H. unfold queue. by rewrite lookup_delete_ne. Qed.

Lemma mailbox_set_same st r e :
  mailbox (setEntry r e st) r = (Some (SSignal e), queue st r).
Proof.
  unfold mailbox, setEntry. rewrite lookup_insert_eq.
  by rewrite queue_insert_ne by apply not_eq_sym, iceKey_ne.
Qed.

Lemma mailbox_set_other st p r e :
  p ≠ r → is_object_id p = true → mailbox (setEntry p e st) r = mailbox st r.
Proof.
  intros Hne Hp. unfold mailbox, setEntry. rewrite lookup_insert_ne by done.
  by rewrite queue_insert_ne by by apply object_id_not_iceKey.
Qed.

Lemma mailbox_append_same (st : gmap string store_val) r cs :
  mailbox (<[iceKey r := SIce cs]> st) r = (st !! r, cs).
Proof.
  unfold mailbox, queue. rewrite lookup_insert_eq.
  by rewrite lookup_insert_ne by apply iceKey_ne.
Qed.

Lemma mailbox_append_other (st : gmap string store_val) p r v :
  p ≠ r → is_object_id r = true →
  mailbox (<[iceKey p := v]> st) r = mailbox st r.
Proof.
  intros Hne Hr. unfold mailbox.
  rewrite lookup_insert_ne by (by apply not_eq_sym, object_id_not_iceKey).
  rewrite queue_insert_ne; [done|]. intros E. by apply iceKey_inj in E.
Qed.

Lemma mailbox_drain_same (st : gmap string store_val) r :
  mailbox (delete (iceKey r) (delete r st)) r = (None, []).
Proof.
  unfold mailbox, queue. by rewrite drained_slot, drained_queue.
Qed.

Lemma mailbox_drain_other (st : gmap string store_val) c r :
  c ≠ r → is_object_id c = true → is_object_id r = true →
  mailbox (delete (iceKey c) (delete c st)) r = mailbox st r.
Proof.
  intros Hne Hc Hr. unfold mailbox.
  rewrite lookup_delete_ne by (by apply not_eq_sym, object_id_not_iceKey).
  rewrite lookup_delete_ne by done.
  rewrite queue_delete_ne by (intros E; by apply iceKey_inj in E).
  by rewrite queue_delete_ne by by apply object_id_not_iceKey.
Qed.

(** A poll never suspends: the step in which it arrives reads and clears
    both keys and sends the answer. *)
Lemma exec_poll w r :
  store_ok (signalingStore w) →
  exec w (Arrive r Poll)
    = World (users w)
            (delete (iceKey r) (delete r (signalingStore w)))
            (pending w)
            (sent w ++ [(r, ok (RPoll (signalingStore w !! r)
                                      (SIce (queue (signalingStore w) r))))]).
Proof.
  intros Hok. unfold exec, start. by rewrite get_poll_drain.
Qed.

(** Serving a request alone is the schedule in which it arrives and is
    resumed at once. *)
Lemma serve_is_schedule db now caller rq st :
  let w := run (World db st [] []) [Arrive caller rq; Resume 0 now] in
  signalingStore w = (serve db now caller rq st).1 ∧
  sent w = [(caller, (serve db now caller rq st).2)] ∧
  pending w = [].
Proof.
  unfold run, serve. cbn [fold_left exec signalingStore users pending sent].
  destruct (start rq caller st) as [st1 [r|id k]]; cbn.
  - done.
  - unfold findById. by destruct (k (db !! id) now st1).
Qed.

(** What resuming a suspended handler does to the store. *)
Lemma resume_store s user now st :
  suspended_ok s → store_ok st →
  s_id s = s_caller s ∧
  ∃ resp,
    s_k s user now st =
      (match partner_of user with
       | None => st
       | Some p =>
           match s_request s with
           | IceCandidate b =>
               <[iceKey p := SIce (queue st p
                    ++ [mkIce (field b "candidate") (s_caller s) now])]> st
           | rq =>
               match written (s_caller s) now rq with
               | Some e => setEntry p e st
               | None => st
               end
           end
       end, resp).
Proof.
  intros Hs Hok. specialize (Hs ∅). destruct s as [c rq id k]. simpl in *.
  destruct rq as [b|b|b| |]; simpl in Hs.
  - unfold post_offer, send_sdp in Hs.
    destruct (negb (truthy (field b "sdp"))); [discriminate|].
    injection Hs as <- <-. split; [done|].
    destruct (partner_of user); eauto.
  - unfold post_answer, send_sdp in Hs.
    destruct (negb (truthy (field b "sdp"))); [discriminate|].
    injection Hs as <- <-. split; [done|].
    destruct (partner_of user); eauto.
  - unfold post_ice_candidate in Hs.
    injection Hs as <- <-. split; [done|].
    destruct (partner_of user) as [p|]; [|eauto].
    unfold queue.
    destruct (store_ok_ice st p Hok) as [E | E]; rewrite E; eauto.
  - destruct (get_poll c ∅). discriminate.
  - unfold post_end in Hs.
    injection Hs as <- <-. split; [done|].
    destruct (partner_of user); eauto.
Qed.

(** Starting a request that suspends leaves the store alone and records
    the continuation of that very request. *)
Lemma start_suspends rq caller st st' id k :
  start rq caller st = (st', AwaitFindById id k) →
  st' = st ∧ suspended_ok (Suspended caller rq id k).
Proof.
  intros H.
  destruct rq as [b|b|b| |]; cbn [start] in H;
    try (destruct (get_poll caller st); discriminate);
    apply pair_equal_spec in H as [<- H]; (split; [done|]);
    intros st0; cbn [start s_request s_caller s_id s_k]; by rewrite H.
Qed.

Lemma start_responds rq caller st st' resp :
  rq ≠ Poll → start rq caller st = (st', Respond resp) → st' = st.
Proof.
  intros Hrq H. destruct rq as [b|b|b| |]; cbn [start] in H; congruence.
Qed.

Lemma users_ok_partner db id p :
  users_ok db → partner_of (findById db id) = Some p → is_object_id p = true.
Proof.
  intros Hdb Hp. unfold findById in Hp.
  destruct (db !! id) as [u|] eqn:E; [|done]. by apply (Hdb id u p).
Qed.

(** One event: the world stays well formed, and the mailbox of [r]
    changes by exactly the effect of the event. *)
Lemma exec_step w r ev :
  world_ok w → is_object_id r = true → event_ok ev →
  world_ok (exec w ev) ∧
  mailbox (signalingStore (exec w ev)) r
    = apply_effect (mailbox (signalingStore w) r) (effect_on r w ev).
Proof.
  intros (Hst & Hdb & Hpend) Hr Hev.
  destruct ev as [c rq | i now | db'].
  - assert (rq = Poll ∨ rq ≠ Poll) as [-> | Hrq]
      by (destruct rq; auto; right; discriminate).
    + rewrite exec_poll by done. cbn.
      split; [split; [by apply store_ok_delete, store_ok_delete | done]|].
      destruct (String.eqb c r) eqn:E.
      * apply String.eqb_eq in E as ->. apply mailbox_drain_same.
      * apply String.eqb_neq in E. by apply mailbox_drain_other.
    + assert (effect_on r w (Arrive c rq) = Nothing) as ->
        by (destruct rq; done).
      unfold exec.
      destruct (start rq c (signalingStore w)) as [st' [resp|id k]] eqn:Hstart.
      * apply start_responds in Hstart as ->; done.
      * apply start_suspends in Hstart as [-> Hs]. cbn.
        split; [|done]. split; [done|]. split; [done|].
        apply Forall_app. split; [done | by constructor].
  - unfold exec, effect_on.
    destruct (pending w !! i) as [s|] eqn:E; [|done].
    assert (suspended_ok s) as Hs by (eapply Forall_lookup_1; eauto).
    destruct (resume_store s (findById (users w) (s_id s)) now
                (signalingStore w) Hs Hst) as [Hid [resp ->]].
    cbn [signalingStore users pending].
    assert (Forall suspended_ok (delete i (pending w))) as Hpend'
      by by apply Forall_delete.
    destruct (partner_of (findById (users w) (s_id s))) as [p|] eqn:Hp; [|done].
    pose proof (users_ok_partner _ _ _ Hdb Hp) as Hobj.
    assert (∀ e, world_ok (World (users w) (setEntry p e (signalingStore w))
                                 (delete i (pending w))
                                 (sent w ++ [(s_caller s, resp)])) ∧
                 mailbox (setEntry p e (signalingStore w)) r
                 = apply_effect (mailbox (signalingStore w) r)
                     (if String.eqb p r then Sets e else Nothing)) as Hset.
    { intros e. split.
      - split; [by apply store_ok_insert | done].
      - destruct (String.eqb p r) eqn:Epr.
        + apply String.eqb_eq in Epr as ->. apply mailbox_set_same.
        + apply String.eqb_neq in Epr. by apply mailbox_set_other. }
    destruct (s_request s) as [b|b|b| |]; cbn [written]; try apply Hset.
    + split.
      * split; [|done]. apply store_ok_insert; [|done].
        split; [by destruct (queue _ p) | by eexists].
      * destruct (String.eqb p r) eqn:Epr.
        -- apply String.eqb_eq in Epr as ->. apply mailbox_append_same.
        -- apply String.eqb_neq in Epr. by apply mailbox_append_other.
    + split; [done|]. by destruct (String.eqb p r).
  - cbn. split; [|done]. split; [done|]. split; [exact Hev | done].
Qed.

Lemma run_mailbox r evs : ∀ w,
  world_ok w → is_object_id r = true → Forall event_ok evs →
  world_ok (run w evs) ∧
  mailbox (signalingStore (run w evs)) r
    = fold_left apply_effect (effects r w evs) (mailbox (signalingStore w) r).
Proof.
  induction evs as [|ev evs IH]; intros w Hw Hr Hevs; [done|].
  apply Forall_cons in Hevs as [Hev Hevs].
  destruct (exec_step w r ev Hw Hr Hev) as [Hw' Hm].
  destruct (IH (exec w ev) Hw' Hr Hevs) as [Hw'' Hm'].
  split; [done|]. cbn [run fold_left effects] in *. by rewrite <- Hm.
Qed.

(** Every store that the server reaches from the empty one is well
    formed. *)
Lemma reachable_store_ok db evs :
  users_ok db → Forall event_ok evs →
  store_ok (signalingStore (run (World db ∅ [] []) evs)).
Proof.
  intros Hdb Hevs.
  assert (world_ok (World db ∅ [] [])) as Hw
    by (split; [apply store_ok_empty | split; [done | constructor]]).
  by destruct (run_mailbox alice evs _ Hw eq_refl Hevs) as [[H _] _].
Qed.

(** Effects without a drain accumulate: the last entry set wins, the
    fragments queue up in order. *)
Lemma fold_no_drain post : ∀ m,
  Forall (λ f, is_drain f = false) post →
  fold_left apply_effect post m
    = (match last_set post with
       | Some e => Some (SSignal e)
       | None => m.1
       end, m.2 ++ appended post).
Proof.
  induction post as [|f post IH]; intros [slot q] Hnd.
  - simpl. by rewrite app_nil_r.
  - apply Forall_cons in Hnd as [Hf Hnd]. cbn [fold_left].
    rewrite IH by done.
    destruct f as [|e|c|]; [discriminate| | |]; simpl;
      destruct (last_set post); try done.
    + by rewrite <- app_assoc.
    + by rewrite <- app_assoc.
Qed.

(** C9.  Requests interleave at their [await]s only, in any order.  A
    poll of [r] is a single step of the event loop: it never suspends,
    and the step in which it arrives answers with the slot and the queue
    of [r] and removes both.  Hence every write lands either before or
    after it: whatever landed since the previous drain of [r] (the last
    entry set, every fragment appended, in order) is what the drain
    returns, and a write that lands after a drain is still there for the
    next one. *)
Theorem drain_atomic (w : world) (r : string) (evs : list event) :
  world_ok w → is_object_id r = true → Forall event_ok evs →
  let w' := run w evs in
  let st' := signalingStore w' in
  exec w' (Arrive r Poll)
    = World (users w') (delete (iceKey r) (delete r st')) (pending w')
            (sent w' ++ [(r, ok (RPoll (st' !! r) (SIce (queue st' r))))]) ∧
  mailbox (delete (iceKey r) (delete r st')) r = (None, []) ∧
  (∀ pre post,
     effects r w evs = pre ++ Drains :: post →
     Forall (λ f, is_drain f = false) post →
     mailbox st' r = (SSignal <$> last_set post, appended post)) ∧
  (∀ pre post,
     effects r w evs = pre ++ post →
     Forall (λ f, is_drain f = false) post →
     (∀ e, last_set post = Some e → st' !! r = Some (SSignal e)) ∧
     ∃ earlier, queue st' r = earlier ++ appended post).
Proof.
  intros Hw Hr Hevs w' st'.
  destruct (run_mailbox r evs w Hw Hr Hevs) as [[Hst' _] Hm].
  fold w' in Hst', Hm. fold st' in Hm.
  split; [by apply exec_poll|]. split; [apply mailbox_drain_same|]. split.
  - intros pre post E Hnd. rewrite Hm, E.
    rewrite fold_left_app. cbn [fold_left apply_effect].
    rewrite fold_no_drain by done. simpl. by destruct (last_set post).
  - intros pre post E Hnd. rewrite E, fold_left_app in Hm.
    rewrite fold_no_drain in Hm by done.
    injection Hm as Hslot Hq. split; [|eauto].
    intros e He. by rewrite Hslot, He.
Qed.

Lemma couple_users_ok : users_ok couple.
Proof.
  intros id u p H Hp. unfold couple in H.
  repeat (apply lookup_insert_Some in H as [[_ <-] | [_ H]];
          [by simplify_eq/= |]).
  by rewrite lookup_empty in H.
Qed.

Lemma quiet_world_ok : world_ok quiet.
Proof.
  split; [apply store_ok_empty|]. split; [apply couple_users_ok | constructor].
Qed.

Lemma busy_evening_ok : Forall event_ok busy_evening.
Proof. repeat constructor. Qed.

(** In [busy_evening] the drain of [bob] takes the candidate that landed
    before it; the offer and the candidate that land afterwards wait for
    the next one. *)
Example busy_evening_effects :
  effects bob quiet busy_evening
    = [Nothing;
       Appends (mkIce (VStr "c0") alice 900);
       Drains;
       Nothing; Nothing; Nothing;
       Appends (mkIce (VStr "c1") alice 1001);
       Sets (mkSignal offer (Some (VStr "first")) alice 1002);
       Nothing] ∧
  sent (run quiet busy_evening)
    = [(alice, ok RSuccess);
       (bob, ok (RPoll None (SIce [mkIce (VStr "c0") alice 900])));
       (alice, ok RSuccess); (alice, ok RSuccess); (bob, ok RSuccess)] ∧
  mailbox (signalingStore (run quiet busy_evening)) bob
    = (Some (SSignal (mkSignal offer (Some (VStr "first")) alice 1002)),
       [mkIce (VStr "c1") alice 1001]).
Proof. repeat split; vm_compute; reflexivity. Qed.

Lemma drain_atomic_witness :
  world_ok quiet ∧ is_object_id bob = true ∧ Forall event_ok busy_evening ∧
  exec (run quiet busy_evening) (Arrive bob Poll)
    = World (users (run quiet busy_evening))
            (delete (iceKey bob)
               (delete bob (signalingStore (run quiet busy_evening))))
            (pending (run quiet busy_evening))
            (sent (run quiet busy_evening)
             ++ [(bob, ok (RPoll (signalingStore (run quiet busy_evening) !! bob)
                     (SIce (queue (signalingStore (run quiet busy_evening)) bob))))]) ∧
  mailbox (delete (iceKey bob)
             (delete bob (signalingStore (run quiet busy_evening)))) bob
    = (None, []) ∧
  (∀ pre post,
     effects bob quiet busy_evening = pre ++ Drains :: post →
     Forall (λ f, is_drain f = false) post →
     mailbox (signalingStore (run quiet busy_evening)) bob
       = (SSignal <$> last_set post, appended post)) ∧
  (∀ pre post,
     effects bob quiet busy_evening = pre ++ post →
     Forall (λ f, is_drain f = false) post →
     (∀ e, last_set post = Some e →
        signalingStore (run quiet busy_evening) !! bob = Some (SSignal e)) ∧
     ∃ earlier,
       queue (signalingStore (run quiet busy_evening)) bob
         = earlier ++ appended post).
Proof.
  split; [exact quiet_world_ok|]. split; [reflexivity|].
  split; [exact busy_evening_ok|].
  exact (drain_atomic quiet bob busy_evening quiet_world_ok eq_refl
           busy_evening_ok).
Defined.

End Relay.

(** * Properties of pairing and presence *)

Module Presence.
Import Auth.

Example three_accounts_linked :
  partner_of (history three_accounts) ann = Some ben ∧
  partner_of (history three_accounts) ben = Some ann ∧
  partner_of (history three_accounts) cyd = None.
Proof. repeat split; vm_compute; reflexivity. Qed.

(** ** Derived presence *)

(** C5.  When [X] is the partner of the caller, [GET /partner-status]
    answers with the booleans derived from the clock at the call:
    [isOnline] is the stored flag and [now - lastActiveAt < 5 min],
    [isTyping] is the stored flag and [now - typingAt < 5 s] (a null
    [typingAt] counts as time [0], as the comparison converts it).  Read
    5 minutes and 1 second after [X]'s last activity, [isOnline] is
    false whatever the stored flag. *)
Theorem presence_is_derived (db : gmap string User) (caller X : string)
    (uc ux : User) (now1 now2 : Z) :
  db !! caller = Some uc →
  partnerId uc = Some X →
  db !! X = Some ux →
  get_partner_status caller now1 now2 db
    = Json 200
        (RStatus (isOnline ux && (now1 - lastActiveAt ux <? 5 * 60 * 1000)%Z)
                 (lastActiveAt ux)
                 (isTyping ux
                  && (now2 - date_number (typingAt ux) <? 5 * 1000)%Z)) ∧
  get_partner_status caller (lastActiveAt ux + (5 * 60 * 1000 + 1000)) now2 db
    = Json 200
        (RStatus false (lastActiveAt ux)
                 (isTyping ux
                  && (now2 - date_number (typingAt ux) <? 5 * 1000)%Z)).
Proof.
  intros Hc Hp Hx.
  assert (∀ n1, get_partner_status caller n1 now2 db
    = Json 200
        (RStatus (isOnline ux && (n1 - lastActiveAt ux <? 5 * 60 * 1000)%Z)
                 (lastActiveAt ux)
                 (isTyping ux
                  && (now2 - date_number (typingAt ux) <? 5 * 1000)%Z))) as Hgen.
  { intros n1. unfold get_partner_status, findById. rewrite Hc, Hp, Hx.
    do 3 f_equal.
    - rewrite Z.gtb_ltb. apply eq_iff_eq_true.
      rewrite !Z.ltb_lt. lia.
    - rewrite Z.gtb_ltb. apply eq_iff_eq_true.
      rewrite !Z.ltb_lt. lia. }
  split; [apply Hgen|].
  rewrite Hgen. do 2 f_equal.
  replace (_ <? _)%Z with false; [apply andb_false_r|].
  symmetry. apply Z.ltb_ge. lia.
Qed.

Lemma presence_is_derived_witness :
  history three_accounts !! ben = Some ben_doc ∧
  partnerId ben_doc = Some ann ∧
  history three_accounts !! ann = Some ann_doc ∧
  get_partner_status ben 2000 2001 (history three_accounts)
    = Json 200
        (RStatus (isOnline ann_doc && (2000 - lastActiveAt ann_doc <? 5 * 60 * 1000)%Z)
                 (lastActiveAt ann_doc)
                 (isTyping ann_doc
                  && (2001 - date_number (typingAt ann_doc) <? 5 * 1000)%Z)) ∧
  get_partner_status ben (lastActiveAt ann_doc + (5 * 60 * 1000 + 1000)) 2001
      (history three_accounts)
    = Json 200
        (RStatus false (lastActiveAt ann_doc)
                 (isTyping ann_doc
                  && (2001 - date_number (typingAt ann_doc) <? 5 * 1000)%Z)).
Proof.
  assert (history three_accounts !! ben = Some ben_doc) as Hb by (vm_compute; reflexivity).
  assert (history three_accounts !! ann = Some ann_doc) as Ha by (vm_compute; reflexivity).
  split; [exact Hb|]. split; [reflexivity|]. split; [exact Ha|].
  exact (presence_is_derived (history three_accounts) ben ann ben_doc ann_doc
           2000 2001 Hb eq_refl Ha).
Defined.

(** ** The typing flag *)

Lemma findByIdAndUpdate_lookup db id u upd :
  db !! id = Some u → findByIdAndUpdate id upd db !! id = Some (upd u).
Proof. intros E. unfold findByIdAndUpdate. rewrite E. apply lookup_insert_eq. Qed.

Lemma findByIdAndUpdate_other db id k upd :
  k ≠ id → findByIdAndUpdate id upd db !! k = db !! k.
Proof.
  intros Hk. unfold findByIdAndUpdate.
  destruct (db !! id); [by apply lookup_insert_ne | done].
Qed.

Lemma strict_true_spec v : strict_true v = true ↔ v = VBool true.
Proof.
  split; [|by intros ->].
  destruct v as [| |[]| | | |]; simpl; congruence.
Qed.

(** C10, as the code has it.  [POST /typing] with request value [v]:
    when [v] is exactly [true] it stores [isTyping = true] and
    [typingAt = now]; for every other [v] it stores [isTyping = false],
    so that the verdict derived for the partner is false; and when [v] is
    falsy (false, absent, null, 0, empty string) it also clears
    [typingAt] to null. *)
Theorem typing_flag_stored (db : gmap string User) (caller : string) (u : User)
    (b : gmap string jsval) (now : Z) :
  db !! caller = Some u →
  ∃ u',
    post_typing caller b now db = (<[caller := u']> db, Json 200 ROk) ∧
    partnerId u' = partnerId u ∧
    (field b "isTyping" = VBool true →
       isTyping u' = true ∧ typingAt u' = Some now) ∧
    (field b "isTyping" ≠ VBool true →
       isTyping u' = false ∧
       ∀ P uP n1 n2,
         db !! P = Some uP → partnerId uP = Some caller →
         ∃ online last,
           get_partner_status P n1 n2 (<[caller := u']> db)
             = Json 200 (RStatus online last false)) ∧
    (truthy (field b "isTyping") = false → typingAt u' = None).
Proof.
  intros Hc. exists (setTyping (field b "isTyping") now u).
  split; [unfold post_typing, findByIdAndUpdate; by rewrite Hc|].
  split; [done|]. split; [by intros ->|]. split.
  - intros Hv.
    assert (strict_true (field b "isTyping") = false) as Hst.
    { destruct (strict_true _) eqn:E; [|done]. by apply strict_true_spec in E. }
    split; [done|]. intros P uP n1 n2 HP HpP.
    unfold get_partner_status, findById.
    destruct (decide (P = caller)) as [-> | Hne].
    + rewrite lookup_insert_eq. simpl. simplify_eq. rewrite HpP.
      rewrite lookup_insert_eq. simpl. rewrite Hst. eauto.
    + rewrite lookup_insert_ne by done. rewrite HP, HpP.
      rewrite lookup_insert_eq. simpl. rewrite Hst. eauto.
  - simpl. by intros ->.
Qed.

Lemma typing_flag_stored_witness :
  history three_accounts !! ann = Some ann_doc ∧
  ∃ u',
    post_typing ann (typing_body (VBool true)) 5000 (history three_accounts)
      = (<[ann := u']> (history three_accounts), Json 200 ROk) ∧
    partnerId u' = partnerId ann_doc ∧
    (field (typing_body (VBool true)) "isTyping" = VBool true →
       isTyping u' = true ∧ typingAt u' = Some 5000%Z) ∧
    (field (typing_body (VBool true)) "isTyping" ≠ VBool true →
       isTyping u' = false ∧
       ∀ P uP n1 n2,
         history three_accounts !! P = Some uP → partnerId uP = Some ann →
         ∃ online last,
           get_partner_status P n1 n2 (<[ann := u']> (history three_accounts))
             = Json 200 (RStatus online last false)) ∧
    (truthy (field (typing_body (VBool true)) "isTyping") = false →
       typingAt u' = None).
Proof.
  assert (history three_accounts !! ann = Some ann_doc) as Ha
    by (vm_compute; reflexivity).
  split; [exact Ha|].
  exact (typing_flag_stored (history three_accounts) ann ann_doc
           (typing_body (VBool true)) 5000 Ha).
Defined.

(** C10 as stated fails: the truthy non-boolean value [1] is stored as
    [isTyping = false] with [typingAt = now], not with a null
    [typingAt]. *)
Lemma typing_truthy_keeps_timestamp :
  history three_accounts !! ann = Some ann_doc ∧
  VNum 1 ≠ VBool true ∧
  (post_typing ann (typing_body (VNum 1)) 5000 (history three_accounts)).1 !! ann
    = Some (mkUser "pa" (Some ben) (Some "AAAA2222") 1000 true false (Some 5000%Z)) ∧
  typingAt (mkUser "pa" (Some ben) (Some "AAAA2222") 1000 true false (Some 5000%Z))
    ≠ None.
Proof.
  split; [vm_compute; reflexivity|]. split; [discriminate|].
  split; [vm_compute; reflexivity | discriminate].
Qed.

(** ** The pairing invariant *)

Lemma findOne_Some q db id u :
  findOne q db = Some (id, u) → db !! id = Some u ∧ q u = true.
Proof.
  unfold findOne. intros H. apply find_some in H as [Hin Hq].
  split; [|done]. by apply elem_of_map_to_list, list_elem_of_In.
Qed.

Lemma one_partner_of_mutual db : mutual db → one_partner db.
Proof.
  intros Hm a b c Ha Hb. apply Hm in Ha, Hb. congruence.
Qed.

Lemma pairing_ok_ext db db' :
  (∀ x, partner_of db' x = partner_of db x) → pairing_ok db → pairing_ok db'.
Proof.
  intros E [Hm Hs]. split.
  - intros a b. rewrite !E. apply Hm.
  - intros a. rewrite E. apply Hs.
Qed.

Lemma partner_of_insert_same db id u' x :
  partner_of db id = partnerId u' → partner_of (<[id := u']> db) x = partner_of db x.
Proof.
  intros E. unfold partner_of in *.
  destruct (decide (x = id)) as [-> | Hne].
  - by rewrite lookup_insert_eq.
  - by rewrite lookup_insert_ne.
Qed.

Lemma partner_of_update db id upd x :
  (∀ u, partnerId (upd u) = partnerId u) →
  partner_of (findByIdAndUpdate id upd db) x = partner_of db x.
Proof.
  intros Hupd. unfold findByIdAndUpdate.
  destruct (db !! id) as [u|] eqn:E; [|done].
  apply partner_of_insert_same. unfold partner_of. rewrite E. simpl. by rewrite Hupd.
Qed.

(** Either nothing changes, or two distinct unlinked documents are linked
    to each other. *)
Lemma post_link_partner_cases caller b db :
  (∃ r, post_link_partner caller b db = (db, r) ∧ status r ≠ 200%nat) ∨
  (∃ pid partner user,
     pid ≠ caller ∧
     db !! pid = Some partner ∧ partnerId partner = None ∧
     db !! caller = Some user ∧ partnerId user = None ∧
     post_link_partner caller b db
       = (<[pid := set_partnerId caller partner]>
            (<[caller := set_partnerId pid user]> db),
          Json 200 (RLinked pid))).
Proof.
  unfold post_link_partner.
  destruct (negb (truthy (field b "inviteCode"))); [left; eexists; split; [done|discriminate]|].
  destruct (field b "inviteCode") as [| | | |s| |];
    try (left; eexists; split; [done|discriminate]).
  destruct (findOne _ db) as [[pid partner]|] eqn:Hf;
    [|left; eexists; split; [done|discriminate]].
  apply findOne_Some in Hf as [Hpid _].
  destruct (String.eqb pid caller) eqn:Heq;
    [left; eexists; split; [done|discriminate]|].
  apply String.eqb_neq in Heq.
  destruct (partnerId partner) as [pp|] eqn:Hpp.
  { rewrite bool_decide_eq_true_2 by eauto.
    left; eexists; split; [done|discriminate]. }
  rewrite bool_decide_eq_false_2 by (by intros [? ?]).
  unfold findById.
  destruct (db !! caller) as [user|] eqn:Hu;
    [|left; eexists; split; [done|discriminate]].
  destruct (partnerId user) as [up|] eqn:Hup.
  { rewrite bool_decide_eq_true_2 by eauto.
    left; eexists; split; [done|discriminate]. }
  rewrite bool_decide_eq_false_2 by (by intros [? ?]).
  right. exists pid, partner, user. done.
Qed.

Lemma link_pairing_ok db caller pid user partner :
  pid ≠ caller →
  db !! pid = Some partner → partnerId partner = None →
  db !! caller = Some user → partnerId user = None →
  pairing_ok db →
  pairing_ok (<[pid := set_partnerId caller partner]>
                (<[caller := set_partnerId pid user]> db)).
Proof.
  intros Hne Hp Hpp Hu Hup [Hm Hs].
  set (db' := <[pid := _]> _).
  assert (partner_of db pid = None) as Hpn by (unfold partner_of; by rewrite Hp).
  assert (partner_of db caller = None) as Hcn by (unfold partner_of; by rewrite Hu).
  assert (partner_of db' pid = Some caller) as E1
    by (unfold partner_of, db'; by rewrite lookup_insert_eq).
  assert (partner_of db' caller = Some pid) as E2.
  { unfold partner_of, db'.
    rewrite lookup_insert_ne by done. by rewrite lookup_insert_eq. }
  assert (∀ x, x ≠ pid → x ≠ caller → partner_of db' x = partner_of db x) as E3.
  { intros x H1 H2. unfold partner_of, db'.
    by rewrite !lookup_insert_ne by done. }
  split.
  - intros a b Hab.
    destruct (decide (a = pid)) as [-> | Ha1]; [congruence|].
    destruct (decide (a = caller)) as [-> | Ha2]; [congruence|].
    rewrite E3 in Hab by done. pose proof (Hm _ _ Hab) as Hba.
    rewrite E3; [done | congruence | congruence].
  - intros a Haa.
    destruct (decide (a = pid)) as [-> | Ha1]; [congruence|].
    destruct (decide (a = caller)) as [-> | Ha2]; [congruence|].
    rewrite E3 in Haa by done. by apply Hs in Haa.
Qed.

(** A request that rewrites one document without touching its
    [partnerId], or leaves the collection alone, keeps every partner. *)
Ltac same_partners Hok :=
  first
    [ exact Hok
    | eapply pairing_ok_ext; [|exact Hok]; intros ?;
      first
        [ by apply partner_of_update
        | apply partner_of_insert_same; unfold partner_of;
          by match goal with E : _ !! _ = _ |- _ => rewrite E end ] ].

Lemma handle_pairing_ok db rq : pairing_ok db → pairing_ok (handle db rq).
Proof.
  intros Hok. destruct rq as [id pid code now|b found now|caller now|caller b
                             |caller|caller now|caller b now]; simpl.
  - unfold post_register.
    destruct (_ || _) eqn:Hdup; [done|].
    apply orb_false_iff in Hdup as [Hid _].
    apply bool_decide_eq_false in Hid.
    assert (db !! id = None) as Hfresh
      by (destruct (db !! id); [exfalso; eauto | done]).
    assert (pairing_ok (<[id := mkUser pid None None now false false None]> db))
      as Hok1 by same_partners Hok.
    destruct (bool_decide _); [done|]. simpl.
    eapply pairing_ok_ext; [|exact Hok1]. intros x.
    apply partner_of_insert_same. unfold partner_of. by rewrite lookup_insert_eq.
  - unfold post_login. destruct (negb _); [done|].
    destruct found as [id|]; simpl; [|done].
    destruct (db !! id) as [u|] eqn:E; simpl; same_partners Hok.
  - unfold get_me, findById.
    destruct (db !! caller) as [u|] eqn:E; simpl; same_partners Hok.
  - destruct (post_link_partner_cases caller b db)
      as [(r & -> & _) | (pid & partner & user & H1 & H2 & H3 & H4 & H5 & ->)];
      [done|]. by apply link_pairing_ok.
  - same_partners Hok.
  - same_partners Hok.
  - same_partners Hok.
Qed.

Lemma pairing_ok_empty : pairing_ok ∅.
Proof. split; intros a; unfold partner_of; rewrite lookup_empty; done. Qed.

Lemma fold_pairing_ok rqs : ∀ db,
  pairing_ok db → pairing_ok (fold_left handle rqs db).
Proof.
  induction rqs as [|rq rqs IH]; intros db Hok; [done|].
  simpl. by apply IH, handle_pairing_ok.
Qed.

End Presence.

(** * Further properties of the signaling relay *)

Module RelayMore.
Import WebRTC Exchange.

(** ** What a request leaves alone *)

Lemma lookup_after_poll (st : gmap string store_val) c k :
  k ≠ c → k ≠ iceKey c → (get_poll c st).1 !! k = st !! k.
Proof.
  intros H1 H2. unfold get_poll. cbn [fst].
  destruct (has_length _); destruct (st !! c);
    rewrite ?lookup_delete_ne by done; done.
Qed.

Lemma mailbox_ext (st st' : gmap string store_val) r :
  st' !! r = st !! r → st' !! iceKey r = st !! iceKey r →
  mailbox st' r = mailbox st r.
Proof. intros E1 E2. unfold mailbox, queue. by rewrite E1, E2. Qed.

(** The mailbox of [r] is changed only by [r]'s own polls and by the
    requests of callers whose partner is [r]: whatever another caller
    sends or polls, slot and queue of [r] stay as they are.  No
    assumption is made on the store. *)
Theorem others_leave_mailbox_alone (db : gmap string User) (caller r : string)
    (rq : request) (now : Z) (st : gmap string store_val) :
  users_ok db →
  is_object_id caller = true → is_object_id r = true →
  caller ≠ r → partner_of (db !! caller) ≠ Some r →
  mailbox (serve db now caller rq st).1 r = mailbox st r.
Proof.
  intros Hdb Hc Hr Hne Hp.
  assert (∀ p e, partner_of (db !! caller) = Some p →
            mailbox (setEntry p e st) r = mailbox st r) as Hset.
  { intros p e E. apply Relay.mailbox_set_other; [congruence|].
    by apply (Relay.users_ok_partner db caller). }
  destruct rq as [b|b|b| |].
  - unfold serve, start, post_offer, send_sdp, findById.
    destruct (negb _); [done|].
    destruct (partner_of (db !! caller)) eqn:E; [by apply Hset | done].
  - unfold serve, start, post_answer, send_sdp, findById.
    destruct (negb _); [done|].
    destruct (partner_of (db !! caller)) eqn:E; [by apply Hset | done].
  - unfold serve, start, post_ice_candidate, findById.
    destruct (partner_of (db !! caller)) as [p|] eqn:E; [|done].
    assert (p ≠ r) by congruence.
    destruct (st !! iceKey p) as [[?|?]|]; [done| |];
      by apply Relay.mailbox_append_other.
  - rewrite Relay.serve_poll. apply mailbox_ext.
    + by apply lookup_after_poll, Relay.object_id_not_iceKey.
    + apply lookup_after_poll.
      * apply not_eq_sym. by apply Relay.object_id_not_iceKey.
      * intros E. by apply Relay.iceKey_inj in E.
  - unfold serve, start, post_end, findById.
    destruct (partner_of (db !! caller)) eqn:E; [by apply Hset | done].
Qed.

Lemma others_leave_mailbox_alone_witness :
  users_ok couple ∧ is_object_id carol = true ∧ is_object_id bob = true ∧
  carol ≠ bob ∧ partner_of (couple !! carol) ≠ Some bob ∧
  mailbox (serve couple 1000 carol Poll
             (setEntry bob (mkSignal end_ None alice 900) no_mail)).1 bob
    = mailbox (setEntry bob (mkSignal end_ None alice 900) no_mail) bob.
Proof.
  assert (carol ≠ bob) as H1 by discriminate.
  assert (partner_of (couple !! carol) ≠ Some bob) as H2 by discriminate.
  split; [exact Relay.couple_users_ok|]. split; [reflexivity|].
  split; [reflexivity|]. split; [exact H1|]. split; [exact H2|].
  exact (others_leave_mailbox_alone couple carol bob Poll 1000
           (setEntry bob (mkSignal end_ None alice 900) no_mail)
           Relay.couple_users_ok eq_refl eq_refl H1 H2).
Defined.

(** ** No server error *)

Lemma start_status rq caller st st' r :
  start rq caller st = (st', Respond r) → status r ≠ 500%nat.
Proof.
  destruct rq as [b|b|b| |]; cbn [start].
  - unfold post_offer, send_sdp. destruct (negb _); intros [= _ <-]. done.
  - unfold post_answer, send_sdp. destruct (negb _); intros [= _ <-]. done.
  - unfold post_ice_candidate. discriminate.
  - unfold get_poll. intros [= _ <-]. done.
  - unfold post_end. discriminate.
Qed.

Lemma resume_status s user now st :
  suspended_ok s → store_ok st → status (s_k s user now st).2 ≠ 500%nat.
Proof.
  intros Hs Hok. specialize (Hs ∅). destruct s as [c rq id k].
  cbn [s_request s_caller s_id s_k] in *.
  destruct rq as [b|b|b| |]; cbn [start] in Hs.
  - unfold post_offer, send_sdp in Hs.
    destruct (negb _); [discriminate|]. injection Hs as _ <-.
    by destruct (partner_of user).
  - unfold post_answer, send_sdp in Hs.
    destruct (negb _); [discriminate|]. injection Hs as _ <-.
    by destruct (partner_of user).
  - unfold post_ice_candidate in Hs. injection Hs as _ <-.
    destruct (partner_of user) as [p|]; [|done].
    destruct (Relay.store_ok_ice st p Hok) as [E | E]; by rewrite E.
  - destruct (get_poll c ∅). discriminate.
  - unfold post_end in Hs. injection Hs as _ <-.
    by destruct (partner_of user).
Qed.

Lemma exec_status w ev :
  world_ok w → event_ok ev →
  Forall (λ x : string * response, status x.2 ≠ 500%nat) (sent w) →
  Forall (λ x : string * response, status x.2 ≠ 500%nat) (sent (exec w ev)).
Proof.
  intros (Hst & Hdb & Hpend) Hev Hsent. destruct ev as [c rq|i now|db'].
  - unfold exec.
    destruct (start rq c (signalingStore w)) as [st' [r|id k]] eqn:E; [|done].
    cbn. apply Forall_app. split; [done|]. constructor; [|done].
    by apply start_status in E.
  - unfold exec. destruct (pending w !! i) as [s|] eqn:E; [|done].
    assert (suspended_ok s) as Hs by (eapply Forall_lookup_1; eauto).
    pose proof (resume_status s (findById (users w) (s_id s)) now
                  (signalingStore w) Hs Hst) as Hr.
    destruct (s_k s _ now _) as [st' r]. cbn.
    apply Forall_app. split; [done|]. by constructor.
  - done.
Qed.

(** Whatever requests arrive and however their handlers interleave, the
    relay started with an empty store never answers 500: no stored value
    is ever read as a value of the other kind.  (Callers and partner ids
    are object ids.) *)
Theorem relay_never_answers_500 (db : gmap string User) (evs : list event) :
  users_ok db → Forall event_ok evs →
  Forall (λ x : string * response, status x.2 ≠ 500%nat)
         (sent (run (World db ∅ [] []) evs)).
Proof.
  intros Hdb Hevs.
  assert (world_ok (World db ∅ [] [])) as Hw
    by (split; [apply Relay.store_ok_empty | split; [done | constructor]]).
  assert (Forall (λ x : string * response, status x.2 ≠ 500%nat)
            (sent (World db ∅ [] []))) as Hs by constructor.
  revert Hw Hs. generalize (World db ∅ [] []).
  induction evs as [|ev evs IH]; intros w Hw Hs; [done|].
  apply Forall_cons in Hevs as [Hev Hevs]. cbn [run fold_left].
  apply IH; [done | | by apply exec_status].
  by destruct (Relay.exec_step w alice ev Hw eq_refl Hev).
Qed.

Lemma relay_never_answers_500_witness :
  users_ok couple ∧ Forall event_ok busy_evening ∧
  Forall (λ x : string * response, status x.2 ≠ 500%nat)
         (sent (run (World couple ∅ [] []) busy_evening)).
Proof.
  split; [exact Relay.couple_users_ok|]. split; [exact Relay.busy_evening_ok|].
  exact (relay_never_answers_500 couple busy_evening Relay.couple_users_ok
           Relay.busy_evening_ok).
Defined.

(** ** Slot and queue are independent channels *)

Lemma request_effect_no_drain A y : is_drain (request_effect A y) = false.
Proof.
  unfold request_effect.
  destruct (y.2); simpl; done.
Qed.

Lemma serve_all_mixed db A B reqs : ∀ st,
  partner_of (db !! A) = Some B →
  st !! iceKey B = None ∨ (∃ c cs, st !! iceKey B = Some (SIce (c :: cs))) →
  Forall (λ y : Z * request, deliverable y.2 = true) reqs →
  ∃ st1,
    serve_all db (map (sent_by A) reqs) st
      = (st1, replicate (length reqs) (ok RSuccess)) ∧
    (st1 !! iceKey B = None
     ∨ (∃ c cs, st1 !! iceKey B = Some (SIce (c :: cs)))) ∧
    mailbox st1 B
      = fold_left apply_effect (map (request_effect A) reqs) (mailbox st B).
Proof.
  induction reqs as [|[t rq] reqs IH]; intros st Hp Hq Hall.
  - exists st. done.
  - apply Forall_cons in Hall as [Hd Hall]. cbn [snd] in Hd.
    cbn [map sent_by serve_all fst snd length replicate fold_left].
    assert (∃ st',
      serve db t A rq st = (st', ok RSuccess) ∧
      (st' !! iceKey B = None
       ∨ (∃ c cs, st' !! iceKey B = Some (SIce (c :: cs)))) ∧
      mailbox st' B = apply_effect (mailbox st B) (request_effect A (t, rq)))
      as (st' & Hserve & Hq' & Hm).
    { destruct rq as [b|b|b| |]; try discriminate.
      - eexists. split; [by apply Relay.serve_send|]. split.
        + unfold setEntry.
          by rewrite lookup_insert_ne by apply not_eq_sym, Relay.iceKey_ne.
        + apply Relay.mailbox_set_same.
      - eexists. split; [by apply Relay.serve_send|]. split.
        + unfold setEntry.
          by rewrite lookup_insert_ne by apply not_eq_sym, Relay.iceKey_ne.
        + apply Relay.mailbox_set_same.
      - eexists. split.
        + apply Relay.serve_ice; [done|]. unfold queue.
          destruct Hq as [-> | (c & cs & ->)]; auto.
        + split.
          * right. rewrite lookup_insert_eq.
            destruct (queue st B); simpl; eauto.
          * apply Relay.mailbox_append_same.
      - eexists. split; [by apply Relay.serve_send|]. split.
        + unfold setEntry.
          by rewrite lookup_insert_ne by apply not_eq_sym, Relay.iceKey_ne.
        + apply Relay.mailbox_set_same. }
    rewrite Hserve.
    destruct (IH st' Hp Hq' Hall) as (st1 & Hrun & Hq1 & Hm1).
    exists st1. rewrite Hrun. split; [done|]. split; [done|].
    by rewrite Hm1, Hm.
Qed.

(** With [A] paired to [B]: after any sequence of accepted offers,
    answers, end signals and candidates from [A], in any order, one poll
    of [B] returns the entry of the last offer / answer / end (or what
    the slot held before, if there was none) together with everything
    that was queued before followed by all the new candidates in order,
    and leaves [B]'s mailbox empty. *)
Theorem slot_and_queue_independent (db : gmap string User)
    (st : gmap string store_val) (A B : string) (reqs : list (Z * request))
    (t : Z) :
  store_ok st →
  partner_of (db !! A) = Some B →
  Forall (λ y : Z * request, deliverable y.2 = true) reqs →
  ∃ st1 st2,
    serve_all db (map (sent_by A) reqs) st
      = (st1, replicate (length reqs) (ok RSuccess)) ∧
    serve db t B Poll st1
      = (st2, ok (RPoll
           (match last_set (map (request_effect A) reqs) with
            | Some e => Some (SSignal e)
            | None => st !! B
            end)
           (SIce (queue st B ++ appended (map (request_effect A) reqs))))) ∧
    mailbox st2 B = (None, []).
Proof.
  intros Hok Hp Hall.
  assert (st !! iceKey B = None
          ∨ (∃ c cs, st !! iceKey B = Some (SIce (c :: cs)))) as Hq.
  { destruct (Relay.store_ok_ice st B Hok) as [E | E]; [by left | right].
    pose proof (Hok _ _ E) as [Hne _].
    destruct (queue st B) as [|c cs]; [done | eauto]. }
  destruct (serve_all_mixed db A B reqs st Hp Hq Hall)
    as (st1 & Hrun & Hq1 & Hm).
  rewrite Relay.fold_no_drain in Hm
    by (apply Forall_map, Forall_forall; intros; apply request_effect_no_drain).
  injection Hm as Hslot Hqueue.
  exists st1, (delete (iceKey B) (delete B st1)).
  split; [done|]. split.
  - rewrite Relay.serve_poll, Relay.get_poll_local by done.
    by rewrite Hslot, Hqueue.
  - apply Relay.mailbox_drain_same.
Qed.

Lemma slot_and_queue_independent_witness :
  store_ok no_mail ∧ partner_of (couple !! alice) = Some bob ∧
  Forall (λ y : Z * request, deliverable y.2 = true) mixed_requests ∧
  ∃ st1 st2,
    serve_all couple (map (sent_by alice) mixed_requests) no_mail
      = (st1, replicate (length mixed_requests) (ok RSuccess)) ∧
    serve couple 2000 bob Poll st1
      = (st2, ok (RPoll
           (match last_set (map (request_effect alice) mixed_requests) with
            | Some e => Some (SSignal e)
            | None => no_mail !! bob
            end)
           (SIce (queue no_mail bob
                  ++ appended (map (request_effect alice) mixed_requests))))) ∧
    mailbox st2 bob = (None, []).
Proof.
  assert (Forall (λ y : Z * request, deliverable y.2 = true) mixed_requests)
    as H by (repeat constructor).
  split; [apply Relay.store_ok_empty|]. split; [reflexivity|].
  split; [exact H|].
  exact (slot_and_queue_independent couple no_mail alice bob mixed_requests
           2000 Relay.store_ok_empty eq_refl H).
Defined.

(** What [bob] receives after [mixed_requests]: the end signal, which
    replaced the offer, and both candidates. *)
Example mixed_requests_delivery :
  (serve couple 2000 bob Poll
     (serve_all couple (map (sent_by alice) mixed_requests) no_mail).1).2
    = ok (RPoll (Some (SSignal (mkSignal end_ None alice 1003)))
                (SIce [mkIce (VStr "c1") alice 1000;
                       mkIce (VStr "c2") alice 1002])).
Proof. vm_compute. reflexivity. Qed.

(** ** A complete exchange *)

Lemma send_then_poll db st A B rq e t1 t2 :
  store_ok st →
  partner_of (db !! A) = Some B →
  accepted rq = true → written A t1 rq = Some e →
  serve db t1 A rq st = (setEntry B e st, ok RSuccess) ∧
  serve db t2 B Poll (setEntry B e st)
    = (delete (iceKey B) (delete B st),
       ok (RPoll (Some (SSignal e)) (SIce (queue st B)))).
Proof.
  intros Hok Hp Hacc Hw. split; [by apply Relay.serve_send|].
  assert (setEntry B e st !! iceKey B = st !! iceKey B) as Eice
    by (apply lookup_insert_ne, not_eq_sym, Relay.iceKey_ne).
  rewrite Relay.serve_poll, Relay.get_poll_local.
  - unfold queue. rewrite Eice. unfold setEntry.
    by rewrite lookup_insert_eq, delete_insert_eq.
  - rewrite Eice.
    destruct (Relay.store_ok_ice st B Hok) as [E | E]; [by left | right].
    pose proof (Hok _ _ E) as [Hne _].
    destruct (queue st B) as [|c cs]; [done | eauto].
Qed.

(** With [A] and [B] paired to each other: [A] offers, [B] polls and
    receives the offer, [B] answers, [A] polls and receives the answer;
    afterwards neither slot holds anything.  The two directions do not
    disturb each other: each poll also returns the candidates that were
    queued for its caller before the exchange. *)
Theorem offer_answer_exchange (db : gmap string User)
    (st : gmap string store_val) (A B : string)
    (bo ba : gmap string jsval) (t1 t2 t3 t4 : Z) :
  store_ok st →
  A ≠ B → is_object_id B = true →
  partner_of (db !! A) = Some B → partner_of (db !! B) = Some A →
  truthy (field bo "sdp") = true → truthy (field ba "sdp") = true →
  ∃ st1 st2 st3 st4,
    serve db t1 A (Offer bo) st = (st1, ok RSuccess) ∧
    serve db t2 B Poll st1
      = (st2, ok (RPoll (Some (SSignal (mkSignal offer (Some (field bo "sdp")) A t1)))
                        (SIce (queue st B)))) ∧
    serve db t3 B (Answer ba) st2 = (st3, ok RSuccess) ∧
    serve db t4 A Poll st3
      = (st4, ok (RPoll (Some (SSignal (mkSignal answer (Some (field ba "sdp")) B t3)))
                        (SIce (queue st A)))) ∧
    st4 !! A = None ∧ st4 !! B = None.
Proof.
  intros Hok Hne HobjB HA HB Hbo Hba.
  destruct (send_then_poll db st A B (Offer bo) _ t1 t2 Hok HA Hbo eq_refl)
    as (Hs1 & Hs2).
  set (st2 := delete (iceKey B) (delete B st)) in *.
  assert (store_ok st2) as Hok2 by by do 2 apply Relay.store_ok_delete.
  destruct (send_then_poll db st2 B A (Answer ba) _ t3 t4 Hok2 HB Hba eq_refl)
    as (Hs3 & Hs4).
  exists (setEntry B (mkSignal offer (Some (field bo "sdp")) A t1) st), st2,
         (setEntry A (mkSignal answer (Some (field ba "sdp")) B t3) st2),
         (delete (iceKey A) (delete A st2)).
  split; [exact Hs1|]. split; [exact Hs2|].
  split; [exact Hs3|]. split.
  - rewrite Hs4. do 4 f_equal. unfold queue, st2.
    rewrite lookup_delete_ne by (intros E; by apply Relay.iceKey_inj in E).
    by rewrite lookup_delete_ne by by apply Relay.object_id_not_iceKey.
  - split; [apply Relay.drained_slot|].
    rewrite lookup_delete_ne
      by (by apply not_eq_sym, Relay.object_id_not_iceKey).
    rewrite lookup_delete_ne by done.
    apply Relay.drained_slot.
Qed.

Lemma offer_answer_exchange_witness :
  store_ok no_mail ∧ alice ≠ bob ∧ is_object_id bob = true ∧
  partner_of (couple !! alice) = Some bob ∧
  partner_of (couple !! bob) = Some alice ∧
  truthy (field (sdp_body "o") "sdp") = true ∧
  truthy (field (sdp_body "a") "sdp") = true ∧
  ∃ st1 st2 st3 st4,
    serve couple 1 alice (Offer (sdp_body "o")) no_mail = (st1, ok RSuccess) ∧
    serve couple 2 bob Poll st1
      = (st2, ok (RPoll (Some (SSignal (mkSignal offer
                           (Some (field (sdp_body "o") "sdp")) alice 1)))
                        (SIce (queue no_mail bob)))) ∧
    serve couple 3 bob (Answer (sdp_body "a")) st2 = (st3, ok RSuccess) ∧
    serve couple 4 alice Poll st3
      = (st4, ok (RPoll (Some (SSignal (mkSignal answer
                           (Some (field (sdp_body "a") "sdp")) bob 3)))
                        (SIce (queue no_mail alice)))) ∧
    st4 !! alice = None ∧ st4 !! bob = None.
Proof.
  assert (alice ≠ bob) as H by discriminate.
  split; [apply Relay.store_ok_empty|]. split; [exact H|].
  do 5 (split; [reflexivity|]).
  exact (offer_answer_exchange couple no_mail alice bob (sdp_body "o")
           (sdp_body "a") 1 2 3 4 Relay.store_ok_empty H eq_refl
           eq_refl eq_refl eq_refl eq_refl).
Defined.

End RelayMore.

(** * Further properties of the account routes *)

Module Accounts.
Import Auth Directory.

(** ** Accounts are never removed *)

Lemma findByIdAndUpdate_is_Some db id upd k :
  is_Some (findByIdAndUpdate id upd db !! k) ↔ is_Some (db !! k).
Proof.
  unfold findByIdAndUpdate. destruct (db !! id) as [u|] eqn:E; [|done].
  destruct (decide (k = id)) as [-> | Hne].
  - rewrite lookup_insert_eq, E. split; eauto.
  - by rewrite lookup_insert_ne.
Qed.

Lemma insert_existing_is_Some (db : gmap string User) id u u' k :
  db !! id = Some u → is_Some (<[id := u']> db !! k) ↔ is_Some (db !! k).
Proof.
  intros E. destruct (decide (k = id)) as [-> | Hne].
  - rewrite lookup_insert_eq, E. split; eauto.
  - by rewrite lookup_insert_ne.
Qed.

(** No request removes an account, and only a registration creates one:
    the accounts after a request are those before it, plus the
    registered [_id] when the request is a registration. *)
Theorem accounts_only_grow_by_register (db : gmap string User) (rq : request)
    (k : string) :
  (is_Some (db !! k) → is_Some (handle db rq !! k)) ∧
  (is_Some (handle db rq !! k) →
   is_Some (db !! k) ∨ ∃ pid code now, rq = Register k pid code now).
Proof.
  destruct rq as [id pid code now|bd found now|caller now|caller bd
                 |caller|caller now|caller bd now]; simpl.
  - unfold post_register.
    destruct (_ || _) eqn:Hdup; [tauto|]. clear Hdup.
    destruct (decide (k = id)) as [-> | Hne].
    + split; [|intros _; right; by exists pid, code, now]. intros _.
      destruct (bool_decide _); simpl; rewrite ?lookup_insert_eq; eauto.
    + destruct (bool_decide _); simpl; rewrite ?lookup_insert_ne by done; tauto.
  - unfold post_login. destruct (negb _); [tauto|].
    destruct found as [id|]; simpl; [|tauto].
    destruct (db !! id) as [u|] eqn:E; simpl; [|tauto].
    rewrite (insert_existing_is_Some db id u) by done. tauto.
  - unfold get_me, findById.
    destruct (db !! caller) as [u|] eqn:E; simpl; [|tauto].
    rewrite (insert_existing_is_Some db caller u) by done. tauto.
  - destruct (Presence.post_link_partner_cases caller bd db)
      as [(r & -> & _) | (pid & partner & user & H1 & H2 & H3 & H4 & H5 & ->)];
      [simpl; tauto|]. simpl.
    assert (<[caller := set_partnerId pid user]> db !! pid = Some partner) as E
      by by rewrite lookup_insert_ne.
    rewrite (insert_existing_is_Some _ pid partner) by done.
    rewrite (insert_existing_is_Some db caller user) by done. tauto.
  - rewrite findByIdAndUpdate_is_Some. tauto.
  - rewrite findByIdAndUpdate_is_Some. tauto.
  - rewrite findByIdAndUpdate_is_Some. tauto.
Qed.

(** ** Unique public ids and invite codes *)

Lemma findOne_None q db :
  findOne q db = None → ∀ id u, db !! id = Some u → q u = false.
Proof.
  unfold findOne. intros H id u E.
  apply (find_none _ _ H (id, u)).
  by apply list_elem_of_In, elem_of_map_to_list.
Qed.

Lemma findOne_unique q db id u :
  db !! id = Some u → q u = true →
  (∀ id' u', db !! id' = Some u' → q u' = true → id' = id) →
  findOne q db = Some (id, u).
Proof.
  intros E Hq Huniq.
  destruct (findOne q db) as [[id' u']|] eqn:F.
  - apply Presence.findOne_Some in F as [E' Hq'].
    pose proof (Huniq _ _ E' Hq') as ->. congruence.
  - pose proof (findOne_None _ _ F _ _ E). congruence.
Qed.

Lemma unique_ext db db' :
  (∀ k, labels db' k = labels db k) →
  codes_unique db ∧ publicIds_unique db →
  codes_unique db' ∧ publicIds_unique db'.
Proof.
  intros E [Hc Hp].
  assert (∀ k u', db' !! k = Some u' →
            ∃ u, db !! k = Some u ∧ publicId u = publicId u'
                 ∧ inviteCode u = inviteCode u') as Hback.
  { intros k u' Hk. specialize (E k). unfold labels in E. rewrite Hk in E.
    destruct (db !! k) as [u|]; [|done]. simpl in E.
    exists u. by simplify_eq. }
  split.
  - intros a b ua ub c Ha Hb Hca Hcb.
    destruct (Hback _ _ Ha) as (va & Hva & _ & Ea).
    destruct (Hback _ _ Hb) as (vb & Hvb & _ & Eb).
    apply (Hc a b va vb c); congruence.
  - intros a b ua ub Ha Hb Hpp.
    destruct (Hback _ _ Ha) as (va & Hva & Ea & _).
    destruct (Hback _ _ Hb) as (vb & Hvb & Eb & _).
    apply (Hp a b va vb); congruence.
Qed.

Lemma labels_insert_same db id u u' k :
  db !! id = Some u →
  publicId u' = publicId u → inviteCode u' = inviteCode u →
  labels (<[id := u']> db) k = labels db k.
Proof.
  intros E Hp Hc. unfold labels.
  destruct (decide (k = id)) as [-> | Hne].
  - rewrite lookup_insert_eq, E. simpl. by rewrite Hp, Hc.
  - by rewrite lookup_insert_ne.
Qed.

Lemma labels_update db id upd k :
  (∀ u, publicId (upd u) = publicId u) →
  (∀ u, inviteCode (upd u) = inviteCode u) →
  labels (findByIdAndUpdate id upd db) k = labels db k.
Proof.
  intros Hp Hc. unfold findByIdAndUpdate.
  destruct (db !! id) as [u|] eqn:E; [|done].
  by apply (labels_insert_same db id u).
Qed.

Lemma register_unique db id pid code now :
  codes_unique db ∧ publicIds_unique db →
  codes_unique (post_register id pid code now db).1
  ∧ publicIds_unique (post_register id pid code now db).1.
Proof.
  intros [Hc Hp]. unfold post_register.
  destruct (_ || _) eqn:Hdup; [done|].
  apply orb_false_iff in Hdup as [Hid Hpid].
  apply bool_decide_eq_false in Hid, Hpid.
  assert (db !! id = None) as Hfresh
    by (destruct (db !! id); [exfalso; eauto | done]).
  assert (findOne (has_publicId pid) db = None) as Hnone
    by (destruct (findOne _ db); [exfalso; eauto | done]).
  set (user := mkUser pid None None now false false None).
  assert (codes_unique (<[id := user]> db)
          ∧ publicIds_unique (<[id := user]> db)) as [Hc1 Hp1].
  { split.
    - intros a b ua ub c Ha Hb Hca Hcb.
      destruct (decide (a = id)) as [-> | Hna].
      { rewrite lookup_insert_eq in Ha. by simplify_eq. }
      destruct (decide (b = id)) as [-> | Hnb].
      { rewrite lookup_insert_eq in Hb. by simplify_eq. }
      rewrite lookup_insert_ne in Ha, Hb by done. eauto.
    - assert (∀ x ux, db !! x = Some ux → publicId ux ≠ pid) as Hno.
      { intros x ux Hx Epid.
        pose proof (findOne_None _ _ Hnone _ _ Hx) as Hq.
        unfold has_publicId in Hq. apply String.eqb_neq in Hq. done. }
      intros a b ua ub Ha Hb Hpp.
      destruct (decide (a = id)) as [-> | Hna];
        destruct (decide (b = id)) as [-> | Hnb]; [done | | |].
      + rewrite lookup_insert_eq in Ha. rewrite lookup_insert_ne in Hb by done.
        simplify_eq. simpl in Hpp. by destruct (Hno _ _ Hb).
      + rewrite lookup_insert_eq in Hb. rewrite lookup_insert_ne in Ha by done.
        simplify_eq. simpl in Hpp. by destruct (Hno _ _ Ha).
      + rewrite lookup_insert_ne in Ha, Hb by done. eauto. }
  destruct (bool_decide _) eqn:Hcode; [done|]. cbn [fst].
  apply bool_decide_eq_false in Hcode.
  assert (findOne (has_inviteCode code) (<[id := user]> db) = None) as Hnc
    by (destruct (findOne _ (<[id:=user]> db)); [exfalso; eauto | done]).
  assert (∀ x ux, <[id := user]> db !! x = Some ux → inviteCode ux ≠ Some code)
    as Hno.
  { intros x ux Hx Ec.
    pose proof (findOne_None _ _ Hnc _ _ Hx) as Hq.
    unfold has_inviteCode in Hq. by apply bool_decide_eq_false in Hq. }
  split.
  - intros a b ua ub c Ha Hb Hca Hcb.
    destruct (decide (a = id)) as [-> | Hna];
      destruct (decide (b = id)) as [-> | Hnb]; [done | | |].
    + rewrite lookup_insert_eq in Ha. rewrite lookup_insert_ne in Hb by done.
      simplify_eq. simpl in Hca. simplify_eq. by destruct (Hno _ _ Hb).
    + rewrite lookup_insert_eq in Hb. rewrite lookup_insert_ne in Ha by done.
      simplify_eq. simpl in Hcb. simplify_eq. by destruct (Hno _ _ Ha).
    + rewrite lookup_insert_ne in Ha, Hb by done. eauto.
  - intros a b ua ub Ha Hb Hpp.
    apply (Hp1 a b (if decide (a = id) then user else ua)
                   (if decide (b = id) then user else ub)).
    + destruct (decide (a = id)) as [-> | Hna];
        [apply lookup_insert_eq | by rewrite lookup_insert_ne in Ha].
    + destruct (decide (b = id)) as [-> | Hnb];
        [apply lookup_insert_eq | by rewrite lookup_insert_ne in Hb].
    + destruct (decide (a = id)) as [-> | Hna];
        destruct (decide (b = id)) as [-> | Hnb];
        try rewrite lookup_insert_eq in Ha;
        try rewrite lookup_insert_eq in Hb;
        simplify_eq; simpl in *; congruence.
Qed.

Lemma handle_unique db rq :
  codes_unique db ∧ publicIds_unique db →
  codes_unique (handle db rq) ∧ publicIds_unique (handle db rq).
Proof.
  intros Hu.
  destruct rq as [id pid code now|bd found now|caller now|caller bd
                 |caller|caller now|caller bd now]; simpl.
  - by apply register_unique.
  - unfold post_login. destruct (negb _); [done|].
    destruct found as [id|]; simpl; [|done].
    destruct (db !! id) as [u|] eqn:E; simpl; [|done].
    eapply unique_ext; [|exact Hu]. intros k.
    by apply (labels_insert_same db id u).
  - unfold get_me, findById.
    destruct (db !! caller) as [u|] eqn:E; simpl; [|done].
    eapply unique_ext; [|exact Hu]. intros k.
    by apply (labels_insert_same db caller u).
  - destruct (Presence.post_link_partner_cases caller bd db)
      as [(r & -> & _) | (pid & partner & user & H1 & H2 & H3 & H4 & H5 & ->)];
      [done|]. simpl.
    eapply unique_ext; [|exact Hu]. intros k.
    rewrite (labels_insert_same _ pid partner)
      by (by rewrite ?lookup_insert_ne).
    by apply (labels_insert_same db caller user).
  - eapply unique_ext; [|exact Hu]. intros k. by apply labels_update.
  - eapply unique_ext; [|exact Hu]. intros k. by apply labels_update.
  - eapply unique_ext; [|exact Hu]. intros k. by apply labels_update.
Qed.

Lemma history_unique rqs :
  codes_unique (history rqs) ∧ publicIds_unique (history rqs).
Proof.
  unfold history.
  assert (codes_unique (∅ : gmap string User)
          ∧ publicIds_unique (∅ : gmap string User)) as H0.
  { split.
    - intros a b ua ub c Ha. by rewrite lookup_empty in Ha.
    - intros a b ua ub Ha. by rewrite lookup_empty in Ha. }
  revert H0. generalize (∅ : gmap string User).
  induction rqs as [|rq rqs IH]; intros db Hu; [done|].
  simpl. by apply IH, handle_unique.
Qed.

(** After every history of requests no two accounts share a public id
    and no two accounts share an invite code: a registration whose
    generated value collides is refused by the unique index, and no
    other route writes either field. *)
Theorem ids_and_codes_stay_unique (rqs : list request) :
  codes_unique (history rqs) ∧ publicIds_unique (history rqs).
Proof. apply history_unique. Qed.


(** ** Registration and its two saves *)

Lemma findOne_is_Some q db id u :
  db !! id = Some u → q u = true → is_Some (findOne q db).
Proof.
  intros E Hq. destruct (findOne q db) eqn:F; [eauto|].
  pose proof (findOne_None _ _ F _ _ E). congruence.
Qed.

Lemma findOne_fresh q db :
  (∀ id u, db !! id = Some u → q u = false) → ¬ is_Some (findOne q db).
Proof.
  intros H [[id u] F]. apply Presence.findOne_Some in F as [E Hq].
  rewrite (H _ _ E) in Hq. discriminate.
Qed.

(** POST /register with a fresh [_id] and a fresh public id saves the
    account before it saves the invite code.  When the generated code is
    free the account is created offline, unlinked and carrying the code,
    and the answer is 201.  When the code already belongs to another
    account the answer is 500, yet the account has been created: it
    stays in the collection without any invite code. *)
Theorem register_saves_twice (db : gmap string User) (id pid code : string)
    (now : Z) :
  db !! id = None →
  (∀ x ux, db !! x = Some ux → publicId ux ≠ pid) →
  ((∀ x ux, db !! x = Some ux → inviteCode ux ≠ Some code) →
     post_register id pid code now db
       = (<[id := mkUser pid None (Some code) now false false None]> db,
          Json 201 (RUser id (mkUser pid None (Some code) now false false None)))) ∧
  ((∃ x ux, db !! x = Some ux ∧ inviteCode ux = Some code) →
     post_register id pid code now db
       = (<[id := mkUser pid None None now false false None]> db,
          ServerError)).
Proof.
  intros Hfresh Hpid.
  assert (bool_decide (is_Some (db !! id))
          || bool_decide (is_Some (findOne (has_publicId pid) db)) = false)
    as Hdup.
  { apply orb_false_iff. split; apply bool_decide_eq_false_2.
    - rewrite Hfresh. by intros [? ?].
    - apply findOne_fresh. intros x ux Hx. apply String.eqb_neq. eauto. }
  unfold post_register. rewrite Hdup. split.
  - intros Hcode. rewrite bool_decide_eq_false_2.
    + by rewrite insert_insert_eq.
    + apply findOne_fresh. intros x ux Hx. apply bool_decide_eq_false_2.
      destruct (decide (x = id)) as [-> | Hne].
      * rewrite lookup_insert_eq in Hx. by simplify_eq.
      * rewrite lookup_insert_ne in Hx by done. eauto.
  - intros (x & ux & Hx & Hcode). rewrite bool_decide_eq_true_2; [done|].
    apply (findOne_is_Some _ _ x ux).
    + rewrite lookup_insert_ne; [done|]. intros ->. congruence.
    + by apply bool_decide_eq_true_2.
Qed.

Lemma register_saves_twice_witness :
  history two_singles !! cyd = None ∧
  (∀ x ux, history two_singles !! x = Some ux → publicId ux ≠ "pc") ∧
  ((∀ x ux, history two_singles !! x = Some ux → inviteCode ux ≠ Some "AAAA2222") →
     post_register cyd "pc" "AAAA2222" 300 (history two_singles)
       = (<[cyd := mkUser "pc" None (Some "AAAA2222") 300 false false None]>
            (history two_singles),
          Json 201 (RUser cyd (mkUser "pc" None (Some "AAAA2222") 300
                                      false false None)))) ∧
  ((∃ x ux, history two_singles !! x = Some ux ∧ inviteCode ux = Some "AAAA2222") →
     post_register cyd "pc" "AAAA2222" 300 (history two_singles)
       = (<[cyd := mkUser "pc" None None 300 false false None]>
            (history two_singles),
          ServerError)).
Proof.
  assert (history two_singles !! cyd = None) as Hc by (vm_compute; reflexivity).
  assert (history two_singles
          = <[ben := ben_single]> (<[ann := ann_single]> ∅)) as Hh
    by (vm_compute; reflexivity).
  assert (∀ x ux, history two_singles !! x = Some ux → publicId ux ≠ "pc") as Hp.
  { intros x ux. rewrite Hh. intros Hx.
    apply lookup_insert_Some in Hx as [[_ <-] | [_ Hx]]; [discriminate|].
    apply lookup_insert_Some in Hx as [[_ <-] | [_ Hx]]; [discriminate|].
    by rewrite lookup_empty in Hx. }
  split; [exact Hc|]. split; [exact Hp|].
  exact (register_saves_twice (history two_singles) cyd "pc" "AAAA2222" 300
           Hc Hp).
Defined.

(** The orphan of a collision: [cyd]'s generated code is the one [ann]
    already has. *)
Example register_collision :
  post_register cyd "pc" "AAAA2222" 300 (history two_singles)
    = (<[cyd := mkUser "pc" None None 300 false false None]>
         (history two_singles), ServerError).
Proof. vm_compute. reflexivity. Qed.

(** ** Linking with an invite code *)

Lemma link_in_history rqs caller pid user partner bd s :
  history rqs !! caller = Some user → partnerId user = None →
  history rqs !! pid = Some partner → partnerId partner = None →
  pid ≠ caller →
  field bd "inviteCode" = VStr s → s ≠ "" →
  inviteCode partner = Some (toUpperCase s) →
  ∃ db',
    post_link_partner caller bd (history rqs) = (db', Json 200 (RLinked pid)) ∧
    partner_of db' caller = Some pid ∧
    partner_of db' pid = Some caller ∧
    ∀ x, x ≠ caller → x ≠ pid → db' !! x = history rqs !! x.
Proof.
  intros Hu Hup Hp Hpp Hne Hcode Hs Hic.
  destruct (history_unique rqs) as [Hc _].
  set (db := history rqs) in *.
  assert (findOne (has_inviteCode (toUpperCase s)) db = Some (pid, partner))
    as Hfind.
  { apply findOne_unique; [done | by apply bool_decide_eq_true_2 |].
    intros id' u' E' Hq. apply bool_decide_eq_true in Hq.
    by apply (Hc id' pid u' partner (toUpperCase s)). }
  exists (<[pid := set_partnerId caller partner]>
            (<[caller := set_partnerId pid user]> db)).
  split; [|split; [|split]].
  - unfold post_link_partner. rewrite Hcode. simpl.
    destruct (String.eqb s "") eqn:Es; [by apply String.eqb_eq in Es|].
    simpl. rewrite Hfind.
    destruct (String.eqb pid caller) eqn:Epc; [by apply String.eqb_eq in Epc|].
    rewrite Hpp. rewrite bool_decide_eq_false_2 by (by intros [? ?]).
    unfold findById. rewrite Hu, Hup.
    by rewrite bool_decide_eq_false_2 by (by intros [? ?]).
  - unfold partner_of.
    rewrite lookup_insert_ne by done. by rewrite lookup_insert_eq.
  - unfold partner_of. by rewrite lookup_insert_eq.
  - intros x H1 H2. by rewrite !lookup_insert_ne by done.
Qed.

(** In every reachable collection: a caller without partner who sends,
    in any letter case, the invite code of another account without
    partner is linked with exactly that account; both documents point
    to each other afterwards and no other document changes. *)
Theorem link_succeeds (rqs : list request) (caller pid : string)
    (user partner : User) (bd : gmap string jsval) (s : string) :
  history rqs !! caller = Some user → partnerId user = None →
  history rqs !! pid = Some partner → partnerId partner = None →
  pid ≠ caller →
  field bd "inviteCode" = VStr s → s ≠ "" →
  inviteCode partner = Some (toUpperCase s) →
  ∃ db',
    post_link_partner caller bd (history rqs) = (db', Json 200 (RLinked pid)) ∧
    partner_of db' caller = Some pid ∧
    partner_of db' pid = Some caller ∧
    ∀ x, x ≠ caller → x ≠ pid → db' !! x = history rqs !! x.
Proof. apply link_in_history. Qed.

Lemma link_succeeds_witness :
  history two_singles !! ann = Some ann_single ∧ partnerId ann_single = None ∧
  history two_singles !! ben = Some ben_single ∧ partnerId ben_single = None ∧
  ben ≠ ann ∧
  field (invite_body "bbbb3333") "inviteCode" = VStr "bbbb3333" ∧
  "bbbb3333" ≠ "" ∧
  inviteCode ben_single = Some (toUpperCase "bbbb3333") ∧
  ∃ db',
    post_link_partner ann (invite_body "bbbb3333") (history two_singles)
      = (db', Json 200 (RLinked ben)) ∧
    partner_of db' ann = Some ben ∧
    partner_of db' ben = Some ann ∧
    ∀ x, x ≠ ann → x ≠ ben → db' !! x = history two_singles !! x.
Proof.
  assert (history two_singles !! ann = Some ann_single) as Ha
    by (vm_compute; reflexivity).
  assert (history two_singles !! ben = Some ben_single) as Hb
    by (vm_compute; reflexivity).
  assert (ben ≠ ann) as Hne by discriminate.
  assert ("bbbb3333" ≠ "") as Hs by discriminate.
  split; [exact Ha|]. split; [reflexivity|]. split; [exact Hb|].
  split; [reflexivity|]. split; [exact Hne|]. split; [reflexivity|].
  split; [exact Hs|]. split; [reflexivity|].
  exact (link_succeeds two_singles ann ben ann_single ben_single
           (invite_body "bbbb3333") "bbbb3333" Ha eq_refl Hb eq_refl Hne
           eq_refl Hs eq_refl).
Defined.

End Accounts.

(** * The invite code *)

Module InviteCode.
Import Invite Auth Directory.

Lemma list_ascii_of_string_app a b :
  list_ascii_of_string (a +:+ b)
    = list_ascii_of_string a ++ list_ascii_of_string b.
Proof. induction a as [|c a IH]; simpl; [done | by rewrite IH]. Qed.

Lemma length_append a b :
  String.length (a +:+ b) = (String.length a + String.length b)%nat.
Proof. induction a as [|c a IH]; simpl; [done | by rewrite IH]. Qed.

Lemma charAt_chars i :
  (i < String.length chars)%nat →
  ∃ c, charAt chars i = String c EmptyString ∧ code_char c = true.
Proof.
  intros Hi. simpl in Hi.
  do 32 (destruct i as [|i]; [eexists; split; reflexivity|]).
  lia.
Qed.

Lemma invite_loop_shape draw n : ∀ i code,
  draws_ok draw →
  forallb code_char (list_ascii_of_string code) = true →
  forallb code_char (list_ascii_of_string (invite_loop draw i n code)) = true ∧
  String.length (invite_loop draw i n code) = (String.length code + n)%nat.
Proof.
  induction n as [|n IH]; intros i code Hd Hc; simpl.
  - split; [done | lia].
  - destruct (charAt_chars (draw i) (Hd i)) as (c & -> & Hcc).
    destruct (IH (S i) (code +:+ String c EmptyString) Hd) as [H1 H2].
    { rewrite list_ascii_of_string_app, forallb_app, Hc. simpl. by rewrite Hcc. }
    split; [done|]. rewrite H2, length_append. simpl. lia.
Qed.

Lemma toUpperCase_fixed s :
  forallb code_char (list_ascii_of_string s) = true → toUpperCase s = s.
Proof.
  induction s as [|c s IH]; simpl; [done|].
  intros H. apply andb_true_iff in H as [Hc Hs].
  unfold code_char in Hc. apply andb_true_iff in Hc as [_ Hu].
  apply Ascii.eqb_eq in Hu. by rewrite Hu, IH.
Qed.

Lemma generated_code_facts draw :
  draws_ok draw →
  String.length (generateInviteCode draw) = 8%nat ∧
  forallb code_char (list_ascii_of_string (generateInviteCode draw)) = true ∧
  toUpperCase (generateInviteCode draw) = generateInviteCode draw ∧
  generateInviteCode draw ≠ "".
Proof.
  intros Hd.
  destruct (invite_loop_shape draw 8 0 "" Hd eq_refl) as [Hc Hlen].
  fold (generateInviteCode draw) in Hc, Hlen. simpl in Hlen.
  split; [done|]. split; [done|]. split; [by apply toUpperCase_fixed|].
  intros E. rewrite E in Hlen. discriminate.
Qed.

Lemma code_char_split l :
  forallb code_char l = true →
  forallb in_alphabet l = true ∧ forallb (λ c, negb (ambiguous c)) l = true.
Proof.
  induction l as [|c l IH]; simpl; [done|].
  intros H. apply andb_true_iff in H as [H1 H2].
  destruct (IH H2) as [-> ->].
  unfold code_char in H1.
  apply andb_true_iff in H1 as [H1 _].
  apply andb_true_iff in H1 as [-> ->]. done.
Qed.

(** Whatever [Math.random()] returns, [generateInviteCode] builds a code
    of exactly 8 characters, all from the 32-character alphabet, none of
    them one of the look-alikes [I], [O], [0], [1]; the code is its own
    upper-case form and is not the empty string. *)
Theorem invite_code_shape (draw : nat -> nat) :
  draws_ok draw →
  String.length (generateInviteCode draw) = 8%nat ∧
  forallb in_alphabet (list_ascii_of_string (generateInviteCode draw)) = true ∧
  forallb (λ c, negb (ambiguous c))
          (list_ascii_of_string (generateInviteCode draw)) = true ∧
  toUpperCase (generateInviteCode draw) = generateInviteCode draw ∧
  truthy (VStr (generateInviteCode draw)) = true.
Proof.
  intros Hd.
  destruct (generated_code_facts draw Hd) as (Hlen & Hc & Hup & Hne).
  destruct (code_char_split _ Hc) as [Ha Hb].
  split; [done|]. split; [done|]. split; [done|]. split; [done|].
  cbn [truthy]. apply negb_true_iff. by apply String.eqb_neq.
Qed.

Lemma sample_draw_ok : draws_ok sample_draw.
Proof.
  intros i. unfold sample_draw.
  change (String.length chars) with 32%nat.
  apply Nat.mod_upper_bound. lia.
Qed.

Lemma invite_code_shape_witness :
  draws_ok sample_draw ∧
  String.length (generateInviteCode sample_draw) = 8%nat ∧
  forallb in_alphabet (list_ascii_of_string (generateInviteCode sample_draw))
    = true ∧
  forallb (λ c, negb (ambiguous c))
          (list_ascii_of_string (generateInviteCode sample_draw)) = true ∧
  toUpperCase (generateInviteCode sample_draw) = generateInviteCode sample_draw ∧
  truthy (VStr (generateInviteCode sample_draw)) = true.
Proof.
  split; [exact sample_draw_ok|].
  exact (invite_code_shape sample_draw sample_draw_ok).
Defined.

Example sample_code : generateInviteCode sample_draw = "DLT29GPW".
Proof. reflexivity. Qed.

(** An out-of-range draw would add nothing to the code: [charAt] returns
    the empty string there. *)
Example charAt_out_of_range : charAt chars 32 = "".
Proof. reflexivity. Qed.

(** An invite code sent back exactly as it was generated is found by
    POST /link-partner, whose search string is the upper-cased input: in
    every reachable collection the caller is linked with the owner of
    the code when neither has a partner. *)
Theorem issued_code_links (rqs : list request) (caller pid : string)
    (user partner : User) (draw : nat -> nat) :
  draws_ok draw →
  history rqs !! caller = Some user → partnerId user = None →
  history rqs !! pid = Some partner → partnerId partner = None →
  pid ≠ caller →
  inviteCode partner = Some (generateInviteCode draw) →
  ∃ db',
    post_link_partner caller (invite_body (generateInviteCode draw))
                      (history rqs)
      = (db', Json 200 (RLinked pid)) ∧
    partner_of db' caller = Some pid ∧ partner_of db' pid = Some caller.
Proof.
  intros Hd Hu Hup Hp Hpp Hne Hic.
  destruct (generated_code_facts draw Hd) as (_ & _ & Hup' & Hnonempty).
  assert (field (invite_body (generateInviteCode draw)) "inviteCode"
          = VStr (generateInviteCode draw)) as Hfield.
  { unfold invite_body, field. by rewrite lookup_singleton_eq. }
  rewrite <- Hup' in Hic at 1.
  destruct (Accounts.link_in_history rqs caller pid user partner
              (invite_body (generateInviteCode draw)) (generateInviteCode draw)
              Hu Hup Hp Hpp Hne Hfield Hnonempty Hic)
    as (db' & H1 & H2 & H3 & _).
  eauto.
Qed.

Lemma issued_code_links_witness :
  draws_ok sample_draw ∧
  history issued_accounts !! ann = Some ann_single ∧
  partnerId ann_single = None ∧
  history issued_accounts !! ben = Some ben_issued ∧
  partnerId ben_issued = None ∧
  ben ≠ ann ∧
  inviteCode ben_issued = Some (generateInviteCode sample_draw) ∧
  ∃ db',
    post_link_partner ann (invite_body (generateInviteCode sample_draw))
                      (history issued_accounts)
      = (db', Json 200 (RLinked ben)) ∧
    partner_of db' ann = Some ben ∧ partner_of db' ben = Some ann.
Proof.
  assert (history issued_accounts !! ann = Some ann_single) as Ha
    by (vm_compute; reflexivity).
  assert (history issued_accounts !! ben = Some ben_issued) as Hb
    by (vm_compute; reflexivity).
  assert (ben ≠ ann) as Hne by discriminate.
  split; [exact sample_draw_ok|]. split; [exact Ha|]. split; [reflexivity|].
  split; [exact Hb|]. split; [reflexivity|]. split; [exact Hne|].
  split; [reflexivity|].
  exact (issued_code_links issued_accounts ann ben ann_single ben_issued
           sample_draw sample_draw_ok Ha eq_refl Hb eq_refl Hne eq_refl).
Defined.

End InviteCode.

(** * Further properties of presence *)

Module PresenceMore.
Import Auth Directory.

Lemma gtb_within window now at_ :
  (at_ >? now - window)%Z = within window now at_.
Proof.
  unfold within. rewrite Z.gtb_ltb. apply eq_iff_eq_true.
  rewrite !Z.ltb_lt. lia.
Qed.

(** What the partner is shown once the document of [X] has been
    replaced by [u'], whose [partnerId] is the old one. *)
Lemma status_after_write db c X ux u' n1 n2 :
  partner_of db c = Some X → db !! X = Some ux →
  partnerId u' = partnerId ux →
  shown (get_partner_status c n1 n2 (<[X := u']> db))
    = Some (isOnline u' && within (5 * 60 * 1000) n1 (lastActiveAt u'),
            lastActiveAt u',
            isTyping u' && within (5 * 1000) n2 (date_number (typingAt u'))).
Proof.
  intros Hc Hx Hp. unfold get_partner_status, findById.
  assert (∃ uc, <[X := u']> db !! c = Some uc ∧ partnerId uc = Some X)
    as (uc & -> & ->).
  { unfold partner_of in Hc.
    destruct (decide (c = X)) as [-> | Hne].
    - rewrite lookup_insert_eq. exists u'. split; [done|].
      rewrite Hx in Hc. simpl in Hc. congruence.
    - rewrite lookup_insert_ne by done.
      destruct (db !! c) as [uc|]; [eauto | done]. }
  rewrite lookup_insert_eq. cbn [shown payload].
  by rewrite !gtb_within.
Qed.

Lemma update_status db c X ux upd n1 n2 :
  partner_of db c = Some X → db !! X = Some ux →
  partnerId (upd ux) = partnerId ux →
  shown (get_partner_status c n1 n2 (findByIdAndUpdate X upd db))
    = Some (isOnline (upd ux)
              && within (5 * 60 * 1000) n1 (lastActiveAt (upd ux)),
            lastActiveAt (upd ux),
            isTyping (upd ux)
              && within (5 * 1000) n2 (date_number (typingAt (upd ux)))).
Proof.
  intros Hc Hx Hp. unfold findByIdAndUpdate. rewrite Hx.
  by apply (status_after_write db c X ux).
Qed.

(** After [X] has sent a heartbeat, called /me or logged in at time
    [now], the partner who asks at time [n1] is shown [lastActive = now]
    and [isOnline] exactly when [n1 - now] is below five minutes,
    whatever the stored flag was before; the typing verdict is not
    affected. *)
Theorem online_after_activity (db : gmap string User) (c X : string)
    (ux : User) (bd : gmap string jsval) (now n1 n2 : Z) :
  partner_of db c = Some X → db !! X = Some ux →
  truthy (field bd "publicId") = true →
  let seen := Some (within (5 * 60 * 1000) n1 now, now,
                    isTyping ux
                    && within (5 * 1000) n2 (date_number (typingAt ux))) in
  shown (get_partner_status c n1 n2 (post_heartbeat X now db).1) = seen ∧
  shown (get_partner_status c n1 n2 (get_me X now db).1) = seen ∧
  shown (get_partner_status c n1 n2 (post_login bd (Some X) now db).1) = seen.
Proof.
  intros Hc Hx Hb seen. split; [|split].
  - unfold post_heartbeat. cbn [fst].
    by rewrite (update_status db c X ux).
  - unfold get_me, findById. rewrite Hx. cbn [fst].
    by rewrite (status_after_write db c X ux).
  - unfold post_login. rewrite Hb. cbn [negb mbind option_bind].
    rewrite Hx. cbn [fmap option_fmap option_map fst].
    by rewrite (status_after_write db c X ux).
Qed.

Lemma online_after_activity_witness :
  partner_of (history three_accounts) ben = Some ann ∧
  history three_accounts !! ann = Some ann_doc ∧
  truthy (field login_body "publicId") = true ∧
  let seen := Some (within (5 * 60 * 1000) 9000 8000, 8000%Z,
                    isTyping ann_doc
                    && within (5 * 1000) 9001 (date_number (typingAt ann_doc))) in
  shown (get_partner_status ben 9000 9001
           (post_heartbeat ann 8000 (history three_accounts)).1) = seen ∧
  shown (get_partner_status ben 9000 9001
           (get_me ann 8000 (history three_accounts)).1) = seen ∧
  shown (get_partner_status ben 9000 9001
           (post_login login_body (Some ann) 8000 (history three_accounts)).1)
    = seen.
Proof.
  assert (partner_of (history three_accounts) ben = Some ann) as Hb
    by (vm_compute; reflexivity).
  assert (history three_accounts !! ann = Some ann_doc) as Ha
    by (vm_compute; reflexivity).
  split; [exact Hb|]. split; [exact Ha|]. split; [reflexivity|].
  exact (online_after_activity (history three_accounts) ben ann ann_doc
           login_body 8000 9000 9001 Hb Ha eq_refl).
Defined.

(** After [X] has logged out the partner is shown [isOnline = false] at
    every later time, while [lastActive] still is the time of [X]'s last
    activity: logging out does not erase it. *)
Theorem offline_after_logout (db : gmap string User) (c X : string)
    (ux : User) (n1 n2 : Z) :
  partner_of db c = Some X → db !! X = Some ux →
  shown (get_partner_status c n1 n2 (post_logout X db).1)
    = Some (false, lastActiveAt ux,
            isTyping ux && within (5 * 1000) n2 (date_number (typingAt ux))).
Proof.
  intros Hc Hx. unfold post_logout. cbn [fst].
  by rewrite (update_status db c X ux).
Qed.

Lemma offline_after_logout_witness :
  partner_of (history three_accounts) ben = Some ann ∧
  history three_accounts !! ann = Some ann_doc ∧
  shown (get_partner_status ben 1001 1002
           (post_logout ann (history three_accounts)).1)
    = Some (false, lastActiveAt ann_doc,
            isTyping ann_doc
            && within (5 * 1000) 1002 (date_number (typingAt ann_doc))).
Proof.
  assert (partner_of (history three_accounts) ben = Some ann) as Hb
    by (vm_compute; reflexivity).
  assert (history three_accounts !! ann = Some ann_doc) as Ha
    by (vm_compute; reflexivity).
  split; [exact Hb|]. split; [exact Ha|].
  exact (offline_after_logout (history three_accounts) ben ann ann_doc
           1001 1002 Hb Ha).
Defined.

(** After [X] has posted [isTyping: true] at time [now] the partner who
    asks at time [n2] is shown [isTyping] exactly when [n2 - now] is
    below five seconds: the indication ends by itself, without any
    request that clears it.  The online verdict is not affected. *)
Theorem typing_expires (db : gmap string User) (c X : string) (ux : User)
    (bd : gmap string jsval) (now n1 n2 : Z) :
  partner_of db c = Some X → db !! X = Some ux →
  field bd "isTyping" = VBool true →
  shown (get_partner_status c n1 n2 (post_typing X bd now db).1)
    = Some (isOnline ux && within (5 * 60 * 1000) n1 (lastActiveAt ux),
            lastActiveAt ux,
            within (5 * 1000) n2 now) ∧
  ((n2 - now < 5000)%Z → within (5 * 1000) n2 now = true) ∧
  ((5000 ≤ n2 - now)%Z → within (5 * 1000) n2 now = false).
Proof.
  intros Hc Hx Hb. split; [|split].
  - unfold post_typing. cbn [fst]. rewrite Hb.
    by rewrite (update_status db c X ux).
  - intros H. unfold within. apply Z.ltb_lt. lia.
  - intros H. unfold within. apply Z.ltb_ge. lia.
Qed.

Lemma typing_expires_witness :
  partner_of (history three_accounts) ben = Some ann ∧
  history three_accounts !! ann = Some ann_doc ∧
  field typing_on "isTyping" = VBool true ∧
  shown (get_partner_status ben 7000 12500
           (post_typing ann typing_on 7000 (history three_accounts)).1)
    = Some (isOnline ann_doc && within (5 * 60 * 1000) 7000 (lastActiveAt ann_doc),
            lastActiveAt ann_doc,
            within (5 * 1000) 12500 7000) ∧
  ((12500 - 7000 < 5000)%Z → within (5 * 1000) 12500 7000 = true) ∧
  ((5000 ≤ 12500 - 7000)%Z → within (5 * 1000) 12500 7000 = false).
Proof.
  assert (partner_of (history three_accounts) ben = Some ann) as Hb
    by (vm_compute; reflexivity).
  assert (history three_accounts !! ann = Some ann_doc) as Ha
    by (vm_compute; reflexivity).
  split; [exact Hb|]. split; [exact Ha|]. split; [reflexivity|].
  exact (typing_expires (history three_accounts) ben ann ann_doc typing_on
           7000 7000 12500 Hb Ha eq_refl).
Defined.

(** ** Presence writes are local *)

Lemma status_ext db db' c q p n1 n2 :
  (∀ k, k ≠ c → db' !! k = db !! k) →
  partnerId <$> db' !! c = partnerId <$> db !! c →
  partner_of db q = Some p → p ≠ c →
  get_partner_status q n1 n2 db' = get_partner_status q n1 n2 db.
Proof.
  intros Hframe Hc Hq Hne. unfold get_partner_status, findById.
  unfold partner_of in Hq.
  destruct (db !! q) as [uq|] eqn:Eq; [|done]. simpl in Hq.
  assert (∃ uq', db' !! q = Some uq' ∧ partnerId uq' = Some p)
    as (uq' & -> & ->).
  { destruct (decide (q = c)) as [-> | Hqc].
    - rewrite Eq in Hc. destruct (db' !! c) as [u'|]; [|done].
      simpl in Hc. exists u'. split; [done | congruence].
    - rewrite Hframe by done. eauto. }
  rewrite Hq. by rewrite Hframe.
Qed.

(** A heartbeat, /me, logout or typing request of [c] changes nothing in
    what anybody is shown about a partner other than [c]: presence of
    one account is never touched by the requests of another. *)
Theorem presence_writes_are_local (db : gmap string User) (rq : request)
    (c q p : string) (n1 n2 : Z) :
  presence_write c rq →
  partner_of db q = Some p → p ≠ c →
  get_partner_status q n1 n2 (handle db rq) = get_partner_status q n1 n2 db.
Proof.
  intros Hrq Hq Hne.
  assert (∀ upd, (∀ u, partnerId (upd u) = partnerId u) →
     get_partner_status q n1 n2 (findByIdAndUpdate c upd db)
     = get_partner_status q n1 n2 db) as Hupd.
  { intros upd Hp. apply (status_ext db _ c q p); try done.
    - intros k Hk. by apply Presence.findByIdAndUpdate_other.
    - unfold findByIdAndUpdate. destruct (db !! c) as [u|] eqn:E;
        [|by rewrite E].
      rewrite lookup_insert_eq. simpl. by rewrite Hp. }
  destruct rq as [id pid code now|bd found now|caller now|caller bd
                 |caller|caller now|caller bd now]; simpl in Hrq; try done;
    subst caller; simpl.
  - unfold get_me, findById. destruct (db !! c) as [u|] eqn:E; [|done].
    cbn [fst]. apply (status_ext db _ c q p); try done.
    + intros k Hk. by rewrite lookup_insert_ne.
    + by rewrite lookup_insert_eq, E.
  - by apply Hupd.
  - by apply Hupd.
  - by apply Hupd.
Qed.

Lemma presence_writes_are_local_witness :
  presence_write cyd (Logout cyd) ∧
  partner_of (history three_accounts) ben = Some ann ∧ ann ≠ cyd ∧
  get_partner_status ben 1001 1002 (handle (history three_accounts) (Logout cyd))
    = get_partner_status ben 1001 1002 (history three_accounts).
Proof.
  assert (partner_of (history three_accounts) ben = Some ann) as Hb
    by (vm_compute; reflexivity).
  assert (ann ≠ cyd) as Hne by discriminate.
  split; [reflexivity|]. split; [exact Hb|]. split; [exact Hne|].
  exact (presence_writes_are_local (history three_accounts) (Logout cyd)
           cyd ben ann 1001 1002 eq_refl Hb Hne).
Defined.

End PresenceMore.

(** * Properties of the push notifications *)

Module Push.
Import Notifications.

Lemma sendToUser_subscribed outcome db u doc e note s :
  db !! u = Some doc → subs s !! u = Some e → e ≠ "" →
  sendToUser outcome db u note s
    = match outcome with
      | Delivered => (mkState (subs s) (attempts s ++ [(e, note)]), true)
      | Refused code =>
          (mkState (if expired code then delete u (subs s) else subs s)
                   (attempts s ++ [(e, note)]), false)
      end.
Proof.
  intros Hdb Hsub He. unfold sendToUser, findById. rewrite Hdb, Hsub.
  destruct (String.eqb e "") eqn:E; [by apply String.eqb_eq in E|].
  destruct outcome as [|code]; [done|]. by destruct (expired code).
Qed.

Lemma sendToUser_unsubscribed outcome db u note s :
  subs s !! u = None → sendToUser outcome db u note s = (s, false).
Proof.
  intros Hsub. unfold sendToUser. rewrite Hsub. by destruct (findById db u).
Qed.

(** When the push service refuses a notification with status 410 or 404
    the subscription of the addressed user is removed, and from then on
    every notification for that user is dropped without calling the push
    service; any other failure keeps the subscription. *)
Theorem expired_subscription_is_dropped (db : gmap string User) (u : string)
    (doc : User) (e : string) (note : notification) (s : state)
    (code : option nat) :
  db !! u = Some doc → subs s !! u = Some e → e ≠ "" →
  ∃ s1,
    sendToUser (Refused code) db u note s = (s1, false) ∧
    attempts s1 = attempts s ++ [(e, note)] ∧
    (expired code = true →
       subs s1 = delete u (subs s) ∧
       ∀ outcome' note', sendToUser outcome' db u note' s1 = (s1, false)) ∧
    (expired code = false → subs s1 = subs s).
Proof.
  intros Hdb Hsub He.
  rewrite (sendToUser_subscribed _ db u doc e) by done.
  eexists. split; [done|]. split; [done|]. split.
  - intros ->. split; [done|]. intros outcome' note'.
    apply sendToUser_unsubscribed. apply lookup_delete_eq.
  - by intros ->.
Qed.

Lemma expired_subscription_is_dropped_witness :
  WebRTC.couple !! WebRTC.bob
    = Some (mkUser "pb" (Some WebRTC.alice) (Some "BBBB3333") 0 true false None) ∧
  subs one_subscriber !! WebRTC.bob = Some "https://push.example/bob" ∧
  "https://push.example/bob" ≠ "" ∧
  ∃ s1,
    sendToUser (Refused (Some 410%nat)) WebRTC.couple WebRTC.bob hello
               one_subscriber = (s1, false) ∧
    attempts s1
      = attempts one_subscriber ++ [("https://push.example/bob", hello)] ∧
    (expired (Some 410%nat) = true →
       subs s1 = delete WebRTC.bob (subs one_subscriber) ∧
       ∀ outcome' note',
         sendToUser outcome' WebRTC.couple WebRTC.bob note' s1 = (s1, false)) ∧
    (expired (Some 410%nat) = false → subs s1 = subs one_subscriber).
Proof.
  assert (WebRTC.couple !! WebRTC.bob
    = Some (mkUser "pb" (Some WebRTC.alice) (Some "BBBB3333") 0 true false None))
    as Hdb by (vm_compute; reflexivity).
  assert (subs one_subscriber !! WebRTC.bob = Some "https://push.example/bob")
    as Hsub by (vm_compute; reflexivity).
  assert ("https://push.example/bob" ≠ "") as He by discriminate.
  split; [exact Hdb|]. split; [exact Hsub|]. split; [exact He|].
  exact (expired_subscription_is_dropped WebRTC.couple WebRTC.bob _ _ hello
           one_subscriber (Some 410%nat) Hdb Hsub He).
Defined.

Lemma sendToUser_facts (outcome : push_outcome)
    (db : gmap string User) (u : string) (note : notification) (s : state) :
  ((sendToUser outcome db u note s).2 = true ↔
     is_Some (db !! u) ∧ outcome = Delivered
     ∧ ∃ e, subs s !! u = Some e ∧ e ≠ "") ∧
  (attempts (sendToUser outcome db u note s).1 = attempts s
   ∨ ∃ e, subs s !! u = Some e
          ∧ attempts (sendToUser outcome db u note s).1
            = attempts s ++ [(e, note)]) ∧
  (∀ v, v ≠ u →
     subs (sendToUser outcome db u note s).1 !! v = subs s !! v).
Proof.
  unfold sendToUser, findById.
  destruct (db !! u) as [doc|] eqn:Hdb.
  2:{ split; [|split; [by left | done]].
      split; [done | by intros [[? ?] _]]. }
  destruct (subs s !! u) as [e|] eqn:Hsub.
  2:{ split; [|split; [by left | done]].
      split; [done | by intros (_ & _ & (? & ? & _))]. }
  destruct (String.eqb e "") eqn:E.
  { apply String.eqb_eq in E as ->.
    split; [|split; [by left | done]].
    split; [done|]. intros (_ & _ & (e & He & Hne)). by simplify_eq. }
  apply String.eqb_neq in E.
  destruct outcome as [|code].
  - split; [|split; [right; eauto | done]].
    split; [eauto 10 | done].
  - assert (∀ m : gmap string string,
              (mkState m (attempts s ++ [(e, note)]), false).2 = true ↔
              is_Some (Some doc) ∧ Refused code = Delivered
              ∧ ∃ e0, Some e = Some e0 ∧ e0 ≠ "") as Hno.
    { intros m. split; [done | by intros (_ & ? & _)]. }
    destruct (expired code).
    + split; [apply Hno|]. split; [right; eauto|].
      intros v Hv. cbn. by rewrite lookup_delete_ne.
    + split; [apply Hno|]. split; [right; eauto | done].
Qed.

(** [sendToUser] reports success exactly when the addressed user exists,
    has a subscription with a non-empty endpoint and the push service
    accepted the notification.  It calls the push service at most once,
    only at that user's own endpoint, and never touches the subscription
    of any other user. *)
Theorem sendToUser_reaches_only_its_target (outcome : push_outcome)
    (db : gmap string User) (u : string) (note : notification) (s : state) :
  ((sendToUser outcome db u note s).2 = true ↔
     is_Some (db !! u) ∧ outcome = Delivered
     ∧ ∃ e, subs s !! u = Some e ∧ e ≠ "") ∧
  (attempts (sendToUser outcome db u note s).1 = attempts s
   ∨ ∃ e, subs s !! u = Some e
          ∧ attempts (sendToUser outcome db u note s).1
            = attempts s ++ [(e, note)]) ∧
  (∀ v, v ≠ u →
     subs (sendToUser outcome db u note s).1 !! v = subs s !! v).
Proof. apply sendToUser_facts. Qed.

(** POST /send-signal: a caller without partner is refused with 400 and
    nothing is sent.  A caller with a partner is always answered with
    success, whether or not the push service delivered; what is sent goes
    to the partner alone, and its text is the given label, or the
    standard sentence when the label is missing or empty. *)
Theorem send_signal_goes_to_partner (outcome : push_outcome)
    (caller : string) (bd : gmap string jsval) (db : gmap string User)
    (s : state) :
  (WebRTC.partner_of (db !! caller) = None →
     post_send_signal outcome caller bd db s
       = (s, Json 400 (RError "No partner connected"))) ∧
  (∀ p, WebRTC.partner_of (db !! caller) = Some p →
     (post_send_signal outcome caller bd db s).2 = Json 200 RSuccess ∧
     (attempts (post_send_signal outcome caller bd db s).1 = attempts s
      ∨ ∃ e, subs s !! p = Some e
             ∧ attempts (post_send_signal outcome caller bd db s).1
               = attempts s ++ [(e, signal_note bd)]) ∧
     (∀ v, v ≠ p →
        subs (post_send_signal outcome caller bd db s).1 !! v = subs s !! v)) ∧
  n_body (signal_note bd)
    = (if truthy (field bd "signalLabel") then field bd "signalLabel"
       else VStr "Your partner sent you a signal").
Proof.
  split; [|split].
  - intros Hp. unfold post_send_signal, findById. by rewrite Hp.
  - intros p Hp. unfold post_send_signal, findById. rewrite Hp. cbn [fst snd].
    split; [done|].
    by destruct (sendToUser_facts outcome db p (signal_note bd) s)
      as (_ & H1 & H2).
  - done.
Qed.

End Push.

(** * Link requests in flight *)

Module LinkRace.
Import Auth LinkLoop.

(** ** The handler served alone *)

(** Run from arrival to answer with nothing in between, and with the
    notification going through, the handler cut at its [await]s does what
    [post_link_partner] does. *)
Lemma link_alone caller b db :
  serve_alone true caller b db
    = ((post_link_partner caller b db).1, Some (post_link_partner caller b db).2).
Proof.
  unfold serve_alone, arrive, post_link_partner.
  destruct (negb (truthy (field b "inviteCode"))); [done|].
  destruct (field b "inviteCode") as [| | | |s| |]; try done.
  cbn [finish resume].
  destruct (findOne (has_inviteCode (toUpperCase s)) db) as [[pid partner]|] eqn:Hf;
    [|done].
  apply Presence.findOne_Some in Hf as [Hpid _].
  destruct (String.eqb pid caller) eqn:Heq; [done|].
  apply String.eqb_neq in Heq.
  destruct (bool_decide (is_Some (partnerId partner))); [done|].
  cbn [finish resume]. unfold findById.
  destruct (db !! caller) as [user|] eqn:Hu; [|done].
  destruct (bool_decide (is_Some (partnerId user))); [done|].
  cbn [finish resume]. unfold save_partnerId. rewrite Hu.
  cbn [finish resume]. unfold save_partnerId.
  rewrite lookup_insert_ne by done. rewrite Hpid. done.
Qed.

(** When the notification service fails to load, the two documents have
    been saved all the same and the answer is 500. *)
Lemma link_alone_unloaded caller b db pid :
  (post_link_partner caller b db).2 = Json 200 (RLinked pid) →
  serve_alone false caller b db
    = ((post_link_partner caller b db).1, Some ServerError).
Proof.
  unfold serve_alone, arrive, post_link_partner.
  destruct (negb (truthy (field b "inviteCode"))); [done|].
  destruct (field b "inviteCode") as [| | | |s| |]; try done.
  cbn [finish resume].
  destruct (findOne (has_inviteCode (toUpperCase s)) db) as [[pid' partner]|] eqn:Hf;
    [|done].
  apply Presence.findOne_Some in Hf as [Hpid _].
  destruct (String.eqb pid' caller) eqn:Heq; [done|].
  apply String.eqb_neq in Heq.
  destruct (bool_decide (is_Some (partnerId partner))); [done|].
  cbn [finish resume]. unfold findById.
  destruct (db !! caller) as [user|] eqn:Hu; [|done].
  destruct (bool_decide (is_Some (partnerId user))); [done|].
  intros _. cbn [finish resume]. unfold save_partnerId. rewrite Hu.
  cbn [finish resume]. unfold save_partnerId.
  rewrite lookup_insert_ne by done. rewrite Hpid. done.
Qed.

(** ** Two requests for the same partner *)

(** C8.  The code does not keep the pairing relation in every reachable
    state.  From three unlinked accounts, when [ann] and [cyd] both send
    [ben]'s invite code and both handlers pass their checks before
    either saves, both are answered 200 and the collection ends with
    [ann -> ben], [cyd -> ben] and [ben -> cyd]: not mutual, and two
    identities linked to the same partner.  A single request stopped
    between its two saves leaves [ann -> ben] while [ben] has no
    partner.  Served one after the other, the second request is
    refused and the relation stays mutual. *)
Theorem link_race_breaks_pairing :
  answers (run at_rest race)
    = [(ann, Json 200 (RLinked ben)); (cyd, Json 200 (RLinked ben))] ∧
  tasks (run at_rest race) = [] ∧
  partner_of (accounts (run at_rest race)) ann = Some ben ∧
  partner_of (accounts (run at_rest race)) ben = Some cyd ∧
  partner_of (accounts (run at_rest race)) cyd = Some ben ∧
  ¬ mutual (accounts (run at_rest race)) ∧
  ¬ one_partner (accounts (run at_rest race)) ∧
  partner_of (accounts (run at_rest half_saved)) ann = Some ben ∧
  partner_of (accounts (run at_rest half_saved)) ben = None ∧
  ¬ mutual (accounts (run at_rest half_saved)) ∧
  answers (run at_rest in_turn)
    = [(ann, Json 200 (RLinked ben));
       (cyd, Json 400 (RError "Partner already linked"))] ∧
  partner_of (accounts (run at_rest in_turn)) ben = Some ann ∧
  partner_of (accounts (run at_rest in_turn)) cyd = None.
Proof.
  assert (answers (run at_rest race)
          = [(ann, Json 200 (RLinked ben)); (cyd, Json 200 (RLinked ben))])
    as Hans by (vm_compute; reflexivity).
  assert (tasks (run at_rest race) = []) as Htasks by (vm_compute; reflexivity).
  assert (partner_of (accounts (run at_rest race)) ann = Some ben) as Ha
    by (vm_compute; reflexivity).
  assert (partner_of (accounts (run at_rest race)) ben = Some cyd) as Hb
    by (vm_compute; reflexivity).
  assert (partner_of (accounts (run at_rest race)) cyd = Some ben) as Hc
    by (vm_compute; reflexivity).
  assert (partner_of (accounts (run at_rest half_saved)) ann = Some ben) as Hha
    by (vm_compute; reflexivity).
  assert (partner_of (accounts (run at_rest half_saved)) ben = None) as Hhb
    by (vm_compute; reflexivity).
  assert (answers (run at_rest in_turn)
          = [(ann, Json 200 (RLinked ben));
             (cyd, Json 400 (RError "Partner already linked"))])
    as Hturn by (vm_compute; reflexivity).
  assert (partner_of (accounts (run at_rest in_turn)) ben = Some ann) as Htb
    by (vm_compute; reflexivity).
  assert (partner_of (accounts (run at_rest in_turn)) cyd = None) as Htc
    by (vm_compute; reflexivity).
  assert (ann ≠ cyd) as Hne by (intros E; vm_compute in E; discriminate E).
  revert Hans Htasks Ha Hb Hc Hha Hhb Hturn Htb Htc.
  generalize (run at_rest race) (run at_rest half_saved) (run at_rest in_turn).
  intros w1 w2 w3 Hans Htasks Ha Hb Hc Hha Hhb Hturn Htb Htc.
  repeat (split; [assumption|]).
  split.
  { intros Hm. apply Hm in Ha. congruence. }
  split.
  { intros Ho. apply Hne. exact (Ho ann cyd ben Ha Hc). }
  repeat (split; [assumption|]).
  split.
  { intros Hm. apply Hm in Hha. congruence. }
  repeat (split; [assumption|]). assumption.
Qed.

(** ** The writes of the other routes *)

Lemma apply_write_partner_of db wr x :
  write_ok wr → partner_of (apply_write db wr) x = partner_of db x.
Proof.
  destruct wr as [id upd | id u]; simpl; intros Hok.
  - by apply Presence.partner_of_update.
  - destruct (db !! id) eqn:E; [done|].
    apply Presence.partner_of_insert_same. unfold partner_of. by rewrite E, Hok.
Qed.

Lemma apply_write_is_Some db wr x :
  is_Some (db !! x) → is_Some (apply_write db wr !! x).
Proof.
  destruct wr as [id upd | id u]; simpl; intros Hx.
  - by apply Accounts.findByIdAndUpdate_is_Some.
  - destruct (db !! id) eqn:E; [done|].
    destruct (decide (x = id)) as [-> | Hne].
    + rewrite lookup_insert_eq. eauto.
    + by rewrite lookup_insert_ne.
Qed.

(** Every request other than a link request changes the collection by
    writes that leave every [partnerId] alone. *)
Lemma other_routes_are_writes db rq :
  not_link rq →
  ∃ ws, Forall write_ok ws ∧ handle db rq = fold_left apply_write ws db.
Proof.
  destruct rq as [id pid code now|b found now|caller now|caller b
                 |caller|caller now|caller b now]; simpl; intros Hnl.
  - unfold post_register.
    destruct (_ || _) eqn:Hdup; [by exists []|].
    apply orb_false_iff in Hdup as [Hid _].
    apply bool_decide_eq_false in Hid.
    assert (db !! id = None) as Hfresh
      by (destruct (db !! id); [exfalso; eauto | done]).
    destruct (bool_decide _).
    + exists [Insert id (mkUser pid None None now false false None)].
      split; [by repeat constructor|]. simpl. by rewrite Hfresh.
    + exists [Insert id (mkUser pid None None now false false None);
              SetFields id (set_inviteCode code)].
      split; [by repeat constructor|]. simpl. rewrite Hfresh.
      unfold findByIdAndUpdate. by rewrite lookup_insert_eq.
  - unfold post_login. destruct (negb _); [by exists []|].
    destruct found as [id|]; simpl; [|by exists []].
    destruct (db !! id) as [u|] eqn:E; simpl; [|by exists []].
    exists [SetFields id (touchActivity now)].
    split; [by repeat constructor|]. simpl. unfold findByIdAndUpdate. by rewrite E.
  - unfold get_me, findById.
    destruct (db !! caller) as [u|] eqn:E; simpl; [|by exists []].
    exists [SetFields caller (touchActivity now)].
    split; [by repeat constructor|]. simpl. unfold findByIdAndUpdate. by rewrite E.
  - done.
  - exists [SetFields caller setOffline]. split; [by repeat constructor|]. done.
  - exists [SetFields caller (touchActivity now)].
    split; [by repeat constructor|]. done.
  - exists [SetFields caller (setTyping (field b "isTyping") now)].
    split; [by repeat constructor|]. done.
Qed.

(** ** A settled link stays *)





(** ** Link requests that do not overlap *)

Lemma write_in_flight db wr t :
  write_ok wr → in_flight_ok db t → in_flight_ok (apply_write db wr) t.
Proof.
  intros Hw.
  assert (∀ d, d = apply_write db wr → pairing_ok db → pairing_ok d) as Hp.
  { intros d -> Hok. eapply Presence.pairing_ok_ext; [|exact Hok].
    intros x. by apply apply_write_partner_of. }
  assert (∀ x, unlinked db x → unlinked (apply_write db wr) x) as Hu.
  { intros x [Hx Hn]. split; [by apply apply_write_is_Some|].
    by rewrite apply_write_partner_of. }
  destruct t as [c code | c pid | c pid | c pid | c pid]; simpl.
  - by apply Hp.
  - intros (Hok & Hne & Hpid). split; [by apply Hp|]. split; [done|]. by apply Hu.
  - intros (Hok & Hne & Hpid & Hc).
    split; [by apply Hp|]. split; [done|]. split; by apply Hu.
  - intros (u & Hpid & Hok).
    destruct (apply_write_is_Some db wr pid) as [u' Hu']; [eauto|].
    exists u'. split; [done|].
    eapply Presence.pairing_ok_ext; [|exact Hok]. intros x.
    destruct (decide (x = pid)) as [-> | Hne]; unfold partner_of.
    + by rewrite !lookup_insert_eq.
    + rewrite !lookup_insert_ne by done.
      by apply (apply_write_partner_of db wr x).
  - by apply Hp.
Qed.

Lemma resume_in_flight loaded t db :
  in_flight_ok db t →
  match (resume loaded t db).2 with
  | Answer _ => pairing_ok (resume loaded t db).1
  | Suspend t' => in_flight_ok (resume loaded t db).1 t'
  end.
Proof.
  destruct t as [c code | c pid | c pid | c pid | c pid]; simpl.
  - intros Hok.
    destruct (findOne (has_inviteCode code) db) as [[pid partner]|] eqn:Hf;
      [|done].
    apply Presence.findOne_Some in Hf as [Hpid _].
    destruct (String.eqb pid c) eqn:Heq; [done|].
    apply String.eqb_neq in Heq.
    destruct (partnerId partner) as [pp|] eqn:Hpp.
    { by rewrite bool_decide_eq_true_2 by eauto. }
    rewrite bool_decide_eq_false_2 by (by intros [? ?]).
    simpl. split; [done|]. split; [done|]. split; [eauto|].
    unfold partner_of. by rewrite Hpid.
  - intros (Hok & Hne & Hpid).
    unfold findById. destruct (db !! c) as [user|] eqn:Hu; [|done].
    destruct (partnerId user) as [up|] eqn:Hup.
    { by rewrite bool_decide_eq_true_2 by eauto. }
    rewrite bool_decide_eq_false_2 by (by intros [? ?]).
    simpl. split; [done|]. split; [done|]. split; [done|]. split; [eauto|].
    unfold partner_of. by rewrite Hu.
  - intros (Hok & Hne & [[partner Hpid] Hpn] & [[user Hu] Hun]).
    unfold save_partnerId. rewrite Hu. simpl.
    exists partner. split; [by rewrite lookup_insert_ne|].
    unfold partner_of in Hpn, Hun. rewrite Hpid in Hpn. rewrite Hu in Hun.
    by apply Presence.link_pairing_ok.
  - intros (u & Hpid & Hok). unfold save_partnerId. rewrite Hpid. done.
  - done.
Qed.

Lemma serial_ok_exec w ev :
  serial_ok w →
  match ev with Arrive _ _ => tasks w = [] | _ => True end →
  event_ok ev →
  serial_ok (exec w ev).
Proof.
  destruct w as [db ts ans]. unfold serial_ok. simpl.
  destruct ev as [c bd | i loaded | wr]; simpl.
  - intros Hok -> _. unfold arrive. destruct (negb _); [done|].
    destruct (field bd "inviteCode"); simpl; done.
  - intros Hok _ _. destruct ts as [|t [|t2 ts]]; [done| |done].
    destruct i as [|i]; [|done]. simpl.
    pose proof (resume_in_flight loaded t db Hok) as H.
    destruct (resume loaded t db) as [db' o]. simpl in *.
    destruct o as [r | t']; done.
  - intros Hok _ Hw. destruct ts as [|t [|t2 ts]]; [|by apply write_in_flight|done].
    eapply Presence.pairing_ok_ext; [|exact Hok].
    intros x. by apply apply_write_partner_of.
Qed.

Lemma serial_ok_run evs : ∀ w,
  serial_ok w → one_at_a_time w evs → Forall event_ok evs →
  serial_ok (run w evs).
Proof.
  unfold run.
  induction evs as [|ev evs IH]; intros w Hok Hone Hevs; [done|].
  apply Forall_cons in Hevs as [Hev Hevs]. destruct Hone as [Hfst Hone].
  simpl. apply IH; [|done|done]. by apply serial_ok_exec.
Qed.

(** When link requests do not overlap (each arrives when none is
    in flight), at most one is ever in flight, and the pairing relation
    is mutual, gives no identity to two partners and links nobody to
    themself in every state but one: while the request in flight is
    between its two [save]s.  The other routes may write at any point. *)
Theorem links_in_turn_keep_pairing (w : world) (evs : list event) :
  tasks w = [] → pairing_ok (accounts w) →
  one_at_a_time w evs → Forall event_ok evs →
  (length (tasks (run w evs)) ≤ 1)%nat ∧
  ((∀ c p, tasks (run w evs) ≠ [AwaitPartnerSave c p]) →
   mutual (accounts (run w evs)) ∧ one_partner (accounts (run w evs))
   ∧ no_self_link (accounts (run w evs))).
Proof.
  intros Hts Hok Hone Hevs.
  assert (serial_ok (run w evs)) as Hser.
  { apply serial_ok_run; [|done|done]. unfold serial_ok. by rewrite Hts. }
  unfold serial_ok in Hser.
  destruct (tasks (run w evs)) as [|t [|t2 ts]]; [| |done].
  - split; [simpl; lia|]. intros _. destruct Hser as [Hm Hs].
    split; [done|]. split; [by apply Presence.one_partner_of_mutual|done].
  - split; [simpl; lia|]. intros Hnot.
    assert (pairing_ok (accounts (run w evs))) as [Hm Hs].
    { destruct t as [c code | c pid | c pid | c pid | c pid]; simpl in Hser.
      - done.
      - tauto.
      - tauto.
      - by destruct (Hnot c pid).
      - done. }
    split; [done|]. split; [by apply Presence.one_partner_of_mutual|done].
Qed.

(** [ann]'s request, with [ben] logging out between its two [save]s,
    then [cyd]'s request for the same partner. *)
Lemma links_in_turn_keep_pairing_witness :
  mutual (accounts (run at_rest in_turn_with_logout))
  ∧ one_partner (accounts (run at_rest in_turn_with_logout))
  ∧ no_self_link (accounts (run at_rest in_turn_with_logout)).
Proof.
  assert (tasks (run at_rest in_turn_with_logout) = [])
    as Hts by (vm_compute; reflexivity).
  apply (links_in_turn_keep_pairing at_rest in_turn_with_logout).
  - reflexivity.
  - apply (Presence.fold_pairing_ok three_singles ∅ Presence.pairing_ok_empty).
  - vm_compute. tauto.
  - repeat constructor; done.
  - intros c p. rewrite Hts. discriminate.
Defined.

End LinkRace.
